(** * scripts/hl7v2-inspect.py: a shallow embedding and its properties

    The script reads a file of HL7v2 messages, keeps the lines that look like
    segments, groups them into messages and prints one of four views.

    A Python [str] is modelled by a Rocq [string] whose characters are the code
    points below 256; Python's integers are [Z]; the text written by [print]
    and the way a run ends (normally, through [sys.exit], or with an uncaught
    exception) are threaded through a small output monad.

    [main] starts where [argparse] has accepted the command line.  Opening
    and reading the file gives its text, raises [FileNotFoundError], or
    raises another exception, which [main] does not catch; failures of
    [print] are outside the model. *)

From Stdlib Require Import List Ascii String ZArith Lia Bool DecimalString.
From Stdlib Require Import DecimalPos.
Import ListNotations.

Local Open Scope string_scope.
Local Open Scope Z_scope.

(** ** Python's string primitives *)

Module PyStr.

(** The newline character and the one-character string holding it. *)
Definition nl_char : ascii := ascii_of_nat 10.
Definition nl : string := String nl_char "".

Definition code (c : ascii) : nat := nat_of_ascii c.

Definition in_range (lo hi : nat) (c : ascii) : bool :=
  (Nat.leb lo (code c) && Nat.leb (code c) hi)%bool.

(** [str.isspace] on one character, which is also what [str.strip] removes
    and what the regular expression class [\s] matches: TAB..CR, FS..US,
    SPACE, NEL and NBSP are the white-space code points below 256. *)
Definition is_space (c : ascii) : bool :=
  (in_range 9 13 c || in_range 28 31 c || Nat.eqb (code c) 32
   || Nat.eqb (code c) 133 || Nat.eqb (code c) 160)%bool.

(** The class [[a-z]] and the class [\d] (the only decimal digits below 256
    are the ASCII ones). *)
Definition is_lower (c : ascii) : bool := in_range 97 122 c.
Definition is_digit (c : ascii) : bool := in_range 48 57 c.
Definition is_upper (c : ascii) : bool := in_range 65 90 c.

(** Truth value of a string: [if s] / [if not s]. *)
Definition truthy (s : string) : bool :=
  match s with EmptyString => false | String _ _ => true end.

(** [len(s)] *)
Definition len (s : string) : Z := Z.of_nat (String.length s).

(** [c in s] for a one-character needle. *)
Fixpoint contains (c : ascii) (s : string) : bool :=
  match s with
  | EmptyString => false
  | String d r => (Ascii.eqb d c || contains c r)%bool
  end.

(** [s.startswith(p)] *)
Fixpoint startswith (p s : string) : bool :=
  match p, s with
  | EmptyString, _ => true
  | String _ _, EmptyString => false
  | String a p', String b s' => (Ascii.eqb a b && startswith p' s')%bool
  end.

(** [s.lstrip()], [s.rstrip()] and [s.strip()] *)
Fixpoint lstrip (s : string) : string :=
  match s with
  | EmptyString => EmptyString
  | String c r => if is_space c then lstrip r else s
  end.

Fixpoint rstrip (s : string) : string :=
  match s with
  | EmptyString => EmptyString
  | String c r =>
      match rstrip r with
      | EmptyString => if is_space c then EmptyString else String c EmptyString
      | r' => String c r'
      end
  end.

Definition strip (s : string) : string := rstrip (lstrip s).

(** [s.split(sep)] for a one-character separator: never the empty list, empty
    pieces are kept. *)
Fixpoint split (sep : ascii) (s : string) : list string :=
  match s with
  | EmptyString => [EmptyString]
  | String c r =>
      if Ascii.eqb c sep then EmptyString :: split sep r
      else match split sep r with
           | p :: ps => String c p :: ps
           | [] => [String c EmptyString]
           end
  end.

(** [sep.join(parts)] *)
Definition join (sep : string) (parts : list string) : string :=
  String.concat sep parts.

(** [str(n)] for an integer, as an f-string prints it. *)
Definition str_of_Z (n : Z) : string := NilZero.string_of_int (Z.to_int n).

(** [enumerate(xs, start)] *)
Fixpoint enumerate {A : Type} (start : Z) (xs : list A) : list (Z * A) :=
  match xs with
  | [] => []
  | x :: r => (start, x) :: enumerate (start + 1) r
  end.

(** [range(lo, hi)], with [n] the number of values still to produce. *)
Fixpoint range_from (lo : Z) (n : nat) : list Z :=
  match n with
  | O => []
  | S m => lo :: range_from (lo + 1) m
  end.

Definition range (lo hi : Z) : list Z := range_from lo (Z.to_nat (hi - lo)).

(** [xs[i]] for a Python list: negative indices count from the end, [None]
    stands for [IndexError]. *)
Definition getitem {A : Type} (xs : list A) (i : Z) : option A :=
  let n := Z.of_nat (List.length xs) in
  if (0 <=? i) && (i <? n) then nth_error xs (Z.to_nat i)
  else if (- n <=? i) && (i <? 0) then nth_error xs (Z.to_nat (n + i))
  else None.

(** [s.upper()], as a sequence of code points: the upper-case forms of
    U+00B5 and U+00FF lie above 255, and U+00DF becomes two letters. *)
Definition upper_char (c : ascii) : list N :=
  let n := N_of_ascii c in
  if is_lower c then [n - 32]%N
  else if (in_range 224 254 c && negb (Nat.eqb (code c) 247))%bool
       then [n - 32]%N
  else if Nat.eqb (code c) 223 then [83; 83]%N
  else if Nat.eqb (code c) 181 then [924]%N
  else if Nat.eqb (code c) 255 then [376]%N
  else [n].

Fixpoint upper (s : string) : list N :=
  match s with
  | EmptyString => []
  | String c r => (upper_char c ++ upper r)%list
  end.

(** The code points of a string, to compare it with an upper-cased one. *)
Fixpoint codepoints (s : string) : list N :=
  match s with
  | EmptyString => []
  | String c r => N_of_ascii c :: codepoints r
  end.

Definition cp_eqb (a b : list N) : bool :=
  if list_eq_dec N.eq_dec a b then true else false.

(** [int(s)]: white space around, an optional sign, then decimal digits with
    single underscores between them; [None] stands for [ValueError].  The
    white space [int] skips is TAB..CR and SPACE, and NEL and NBSP, which it
    first turns into spaces; FS..US are not skipped. *)
Definition is_int_space (c : ascii) : bool :=
  (in_range 9 13 c || Nat.eqb (code c) 32
   || Nat.eqb (code c) 133 || Nat.eqb (code c) 160)%bool.

Fixpoint int_lstrip (s : string) : string :=
  match s with
  | EmptyString => EmptyString
  | String c r => if is_int_space c then int_lstrip r else s
  end.

Definition digit_value (c : ascii) : Z := Z.of_nat (code c) - 48.

(** The digits after the sign.  [prev_digit] tells whether the previous
    character was a digit (an underscore must stand between two digits),
    [acc] is the value and [count] the number of digits read so far.  The
    scan stops at the first character that is neither a digit nor an
    underscore and hands back what is left. *)
Fixpoint int_digits (prev_digit : bool) (acc : Z) (count : Z) (s : string)
  : option (Z * Z * string) :=
  match s with
  | EmptyString => if prev_digit then Some (acc, count, s) else None
  | String c r =>
      if is_digit c then int_digits true (10 * acc + digit_value c) (count + 1) r
      else if Ascii.eqb c "_" then
        if prev_digit then int_digits false acc count r else None
      else if prev_digit then Some (acc, count, s) else None
  end.

(** The default of [sys.get_int_max_str_digits()]. *)
Definition int_max_str_digits : Z := 4300.

Definition int_unsigned (s : string) : option Z :=
  match int_digits false 0 0 s with
  | Some (v, count, rest) =>
      if (truthy (int_lstrip rest) || (int_max_str_digits <? count))%bool
      then None else Some v
  | None => None
  end.

Definition py_int (s : string) : option Z :=
  match int_lstrip s with
  | String "+" r => int_unsigned r
  | String "-" r => option_map Z.opp (int_unsigned r)
  | t => int_unsigned t
  end.

(** [p in s] for a needle of any length. *)
Fixpoint is_infix (p s : string) : bool :=
  (startswith p s ||
   match s with EmptyString => false | String _ r => is_infix p r end)%bool.

End PyStr.

Import PyStr.

(** ** The message extractor *)

Definition SEGMENT_NAMES : list string :=
  ["MSH"; "PID"; "PV1"; "PV2"; "PD1"; "NK1"; "ORC"; "OBR"; "OBX";
   "RXA"; "RXR"; "SPM"; "NTE"; "AL1"; "DG1"; "GT1"; "IN1"; "IN2";
   "IN3"; "TQ1"; "TQ2"; "SFT"; "UAC"; "ARV"; "PRT"; "EVN"; "MRG";
   "ROL"; "FT1"; "ACC"; "UB1"; "UB2"; "RXE"; "RXD"; "RXG"; "RXC"].

(** [seg in SEGMENT_NAMES] *)
Definition in_names (seg : string) : bool :=
  existsb (String.eqb seg) SEGMENT_NAMES.

(** [re.sub(r"\\[a-z]+\d*\s?", "", content)] as a scanner.  In state [Text]
    a backslash followed by a lower-case letter opens a match, which is
    dropped; [Letters] is inside [[a-z]+], [Digits] inside [\d*].  A match
    ends after one optional white-space character, or before the first
    character that fits nowhere, which is then read as text again. *)
Inductive ctrl_state : Type := Text | Letters | Digits.

Definition starts_lower (s : string) : bool :=
  match s with String c _ => is_lower c | EmptyString => false end.

Fixpoint sub_ctrl (st : ctrl_state) (s : string) : string :=
  match s with
  | EmptyString => EmptyString
  | String c r =>
      let as_text :=
        if (Ascii.eqb c "\" && starts_lower r)%bool then sub_ctrl Letters r
        else String c (sub_ctrl Text r) in
      match st with
      | Text => as_text
      | Letters =>
          if is_lower c then sub_ctrl Letters r
          else if is_digit c then sub_ctrl Digits r
          else if is_space c then sub_ctrl Text r
          else as_text
      | Digits =>
          if is_digit c then sub_ctrl Digits r
          else if is_space c then sub_ctrl Text r
          else as_text
      end
  end.

(** [re.sub(r"[{}]", "", content)] *)
Fixpoint sub_braces (s : string) : string :=
  match s with
  | EmptyString => EmptyString
  | String c r =>
      if (Ascii.eqb c "{" || Ascii.eqb c "}")%bool then sub_braces r
      else String c (sub_braces r)
  end.

Definition strip_rtf (content : string) : string :=
  if startswith "{\rtf" content then sub_braces (sub_ctrl Text content)
  else content.

(** The test of the first loop, on a line that is already stripped. *)
Definition retained (line : string) : bool :=
  let seg := strip (hd EmptyString (split "|" line)) in
  (in_names seg || (String.eqb seg "MSH" && contains "|" line))%bool.

(** The first loop: the lines that are kept, in order. *)
Definition segment_lines (content : string) : list string :=
  flat_map
    (fun raw =>
       let line := strip raw in
       if negb (truthy line) then []
       else if retained line then [line] else [])
    (split nl_char (strip_rtf content)).

(** The second loop: one step on the pair [(messages, current)]. *)
Definition is_nil {A : Type} (l : list A) : bool :=
  match l with [] => true | _ :: _ => false end.

Definition close_current (messages : list (list string)) (current : list string)
  : list (list string) :=
  if is_nil current then messages else (messages ++ [current])%list.

Definition group_step (st : list (list string) * list string) (line : string)
  : list (list string) * list string :=
  let (messages, current) := st in
  if startswith "MSH|" line then (close_current messages current, [line])
  else (messages, (current ++ [line])%list).

Definition group_messages (lines : list string) : list (list string) :=
  let (messages, current) := fold_left group_step lines ([], []) in
  close_current messages current.

Definition extract_messages (content : string) : list (list string) :=
  group_messages (segment_lines content).

(** ** Output and the ways a run ends *)

(** What can leave a function other than its result: [sys.exit(code)], the
    only exception the views can raise, and any exception of [open] or
    [read] other than [FileNotFoundError] ([IsADirectoryError],
    [PermissionError], [UnicodeDecodeError], ...); nobody catches the last
    two. *)
Inductive exn : Type :=
| SystemExit (code : Z)
| IndexError
| ReadError.

(** A computation that prints: the strings handed to [print] so far, in order
    (each is followed by a newline on standard output), and how it ended. *)
Definition IO (A : Type) : Type := (list string * (exn + A))%type.

Definition ret {A : Type} (a : A) : IO A := ([], inr a).

Definition bind {A B : Type} (m : IO A) (k : A -> IO B) : IO B :=
  match m with
  | (out, inl e) => (out, inl e)
  | (out, inr a) => let (out', r) := k a in ((out ++ out')%list, r)
  end.

Declare Scope io_scope.
Delimit Scope io_scope with io.
Notation "x <- m ;; k" := (bind m (fun x => k))
  (at level 61, m at next level, right associativity) : io_scope.
Notation "m ;; k" := (bind m (fun _ => k))
  (at level 61, right associativity) : io_scope.
Local Open Scope io_scope.

Definition print (s : string) : IO unit := ([s], inr tt).
Definition raise {A : Type} (e : exn) : IO A := ([], inl e).
Definition sys_exit {A : Type} (code : Z) : IO A := raise (SystemExit code).

(** [if b: m] *)
Definition when (b : bool) (m : IO unit) : IO unit := if b then m else ret tt.

(** [for x in xs: body] *)
Fixpoint for_each {A : Type} (xs : list A) (body : A -> IO unit) : IO unit :=
  match xs with
  | [] => ret tt
  | x :: r => body x ;; for_each r body
  end.

(** [xs[i]] inside a view. *)
Definition index {A : Type} (xs : list A) (i : Z) : IO A :=
  match getitem xs i with
  | Some x => ret x
  | None => raise IndexError
  end.

(** What has been written on standard output. *)
Definition stdout {A : Type} (r : IO A) : string :=
  String.concat "" (map (fun s => s ++ nl) (fst r)).

(** The exit status of the process: an uncaught exception ends Python with
    status 1. *)
Definition exit_status {A : Type} (r : IO A) : Z :=
  match snd r with
  | inr _ => 0
  | inl (SystemExit code) => code
  | inl IndexError => 1
  | inl ReadError => 1
  end.

(** ** The component / repetition decomposer *)

Definition count_true (f : string -> bool) (xs : list string) : Z :=
  Z.of_nat (List.length (filter f xs)).

Definition list_len {A : Type} (xs : list A) : Z := Z.of_nat (List.length xs).

Definition describe_component (value : string) : string :=
  if negb (truthy value) then "(empty)"
  else if contains "^" value then
    let parts := split "^" value in
    let non_empty := count_true truthy parts in
    "(" ++ str_of_Z non_empty ++ "/" ++ str_of_Z (list_len parts)
    ++ " components)"
  else if contains "~" value then
    let repeats := split "~" value in
    "(" ++ str_of_Z (list_len repeats) ++ " repeats)"
  else "(len=" ++ str_of_Z (len value) ++ ")".

(** ** The four views *)

(** The frame all views share: a header before each message and, in the
    Structure and Values views, an empty line after it, when the file holds
    more than one message. *)
Definition for_messages (messages : list (list string))
    (header : Z -> string) (trailer : bool)
    (body : string -> IO unit) : IO unit :=
  for_each (enumerate 0 messages)
    (fun '(i, msg) =>
       when (1 <? list_len messages) (print (header i)) ;;
       for_each msg body ;;
       when ((1 <? list_len messages) && trailer) (print "")).

Definition structure_line (line : string) : IO unit :=
  let parts := split "|" line in
  seg <- index parts 0 ;;
  let total_fields :=
    if String.eqb seg "MSH" then list_len parts - 1 else list_len parts - 1 in
  let start := if negb (String.eqb seg "MSH") then 1 else 1 in
  let populated :=
    flat_map
      (fun '(j, val) =>
         if (String.eqb seg "MSH" && (j =? 1))%bool then []
         else if truthy (strip val)
              then [str_of_Z j ++ describe_component val]
              else [])
      (enumerate start (skipn (Z.to_nat start) parts)) in
  print ("  " ++ seg ++ " (" ++ str_of_Z total_fields ++ " fields) populated: "
         ++ join ", " populated).

Definition show_structure (messages : list (list string)) : IO unit :=
  for_messages messages
    (fun i => "=== Message " ++ str_of_Z (i + 1) ++ " of "
              ++ str_of_Z (list_len messages) ++ " ===")
    true structure_line.

(** The [" | ".join(...)] of the Values view. *)
Definition comp_str (components : list string) : string :=
  join " | "
    (map (fun '(k, c) =>
            if truthy c then "C" ++ str_of_Z (k + 1) ++ "=" ++ c
            else "C" ++ str_of_Z (k + 1) ++ "=(empty)")
         (enumerate 0 components)).

Definition values_field (seg : string) (j : Z) (val : string) : IO unit :=
  if (String.eqb seg "MSH" && (j =? 1))%bool then
    print ("    Field " ++ str_of_Z j ++ ": (encoding chars)")
  else if truthy (strip val) then
    if contains "^" val then
      print ("    Field " ++ str_of_Z j ++ ": " ++ comp_str (split "^" val))
    else if contains "~" val then
      for_each (enumerate 0 (split "~" val))
        (fun '(r_idx, repeat) =>
           if contains "^" repeat then
             print ("    Field " ++ str_of_Z j ++ "[" ++ str_of_Z (r_idx + 1)
                    ++ "]: " ++ comp_str (split "^" repeat))
           else
             print ("    Field " ++ str_of_Z j ++ "[" ++ str_of_Z (r_idx + 1)
                    ++ "]: " ++ repeat))
    else print ("    Field " ++ str_of_Z j ++ ": " ++ val)
  else ret tt.

(** [segment_filter and seg != segment_filter] *)
Definition filtered_out (segment_filter : option string) (seg : string) : bool :=
  match segment_filter with
  | Some f => (truthy f && negb (String.eqb seg f))%bool
  | None => false
  end.

Definition values_line (segment_filter : option string) (line : string)
  : IO unit :=
  let parts := split "|" line in
  seg <- index parts 0 ;;
  if filtered_out segment_filter seg then ret tt
  else
    print ("  " ++ seg ++ ":") ;;
    for_each (enumerate 1 (skipn 1 parts))
      (fun '(j, val) => values_field seg j val).

Definition show_values (messages : list (list string))
    (segment_filter : option string) : IO unit :=
  for_messages messages
    (fun i => "=== Message " ++ str_of_Z (i + 1) ++ " of "
              ++ str_of_Z (list_len messages) ++ " ===")
    true (values_line segment_filter).

(** The [try] block shared by the Field and Verify views: [None] is the
    [ValueError] of a split that does not give two pieces, or of [int]. *)
Definition parse_field_spec (field_spec : string) : option (string * Z) :=
  match split "." field_spec with
  | [seg_type; field_num] =>
      match py_int field_num with
      | Some n => Some (seg_type, n)
      | None => None
      end
  | _ => None
  end.

(** [seg != seg_type] after [seg_type = seg_type.upper()] *)
Definition seg_differs (seg : string) (seg_type : list N) : bool :=
  negb (cp_eqb (codepoints seg) seg_type).

Definition field_line (seg_type : list N) (field_num : Z) (line : string)
  : IO unit :=
  let parts := split "|" line in
  seg <- index parts 0 ;;
  if seg_differs seg seg_type then ret tt
  else if list_len parts <=? field_num then
    print ("  " ++ seg ++ "-" ++ str_of_Z field_num ++ ": (not present, only "
           ++ str_of_Z (list_len parts - 1) ++ " fields)")
  else
    val <- index parts field_num ;;
    if negb (truthy (strip val)) then
      print ("  " ++ seg ++ "-" ++ str_of_Z field_num ++ ": (empty)")
    else if contains "^" val then
      print ("  " ++ seg ++ "-" ++ str_of_Z field_num ++ ": " ++ val) ;;
      for_each (enumerate 0 (split "^" val))
        (fun '(k, c) =>
           let label := "    ." ++ str_of_Z (k + 1) in
           print (label ++ ": " ++ (if truthy c then c else "(empty)")))
    else if contains "~" val then
      let repeats := split "~" val in
      print ("  " ++ seg ++ "-" ++ str_of_Z field_num ++ ": ("
             ++ str_of_Z (list_len repeats) ++ " repeats)") ;;
      for_each (enumerate 0 repeats)
        (fun '(r_idx, repeat) =>
           print ("    [" ++ str_of_Z (r_idx + 1) ++ "]: " ++ repeat))
    else print ("  " ++ seg ++ "-" ++ str_of_Z field_num ++ ": " ++ val).

Definition show_field (messages : list (list string)) (field_spec : string)
  : IO unit :=
  match parse_field_spec field_spec with
  | None =>
      print ("Error: invalid field spec '" ++ field_spec
             ++ "'. Use format SEG.N (e.g., RXA.6)") ;;
      sys_exit 1
  | Some (seg_type, field_num) =>
      let seg_type := upper seg_type in
      for_messages messages
        (fun i => "--- Message " ++ str_of_Z (i + 1) ++ " ---")
        false (field_line seg_type field_num)
  end.

(** One line of the context window of the Verify view. *)
Definition context_part (parts : list string) (field_num j : Z) : IO string :=
  v <- (if j <? list_len parts then index parts j else ret "") ;;
  let marker := if j =? field_num then " <<< " else "" in
  let v_display := if truthy (strip v) then v else "(empty)" in
  ret ("    Field " ++ str_of_Z j ++ ": " ++ v_display ++ marker).

(** The list comprehension-like loop filling [context_parts]. *)
Fixpoint collect {A B : Type} (xs : list A) (f : A -> IO B) : IO (list B) :=
  match xs with
  | [] => ret []
  | x :: r => y <- f x ;; ys <- collect r f ;; ret (y :: ys)
  end.

Definition verify_line (seg_type : list N) (field_num : Z) (line : string)
  : IO unit :=
  let parts := split "|" line in
  seg <- index parts 0 ;;
  if seg_differs seg seg_type then ret tt
  else
    let total := list_len parts - 1 in
    if total <? field_num then
      print ("  " ++ seg ++ ": has " ++ str_of_Z total
             ++ " fields, requested field " ++ str_of_Z field_num
             ++ " is beyond end") ;;
      print ("  Need " ++ str_of_Z (field_num - total)
             ++ " more pipes to reach field " ++ str_of_Z field_num)
    else
      val <- (if field_num <? list_len parts then index parts field_num
              else ret "(absent)") ;;
      let val_display := if truthy (strip val) then val else "(empty)" in
      let context_start := Z.max 1 (field_num - 2) in
      let context_end := Z.min (total + 1) (field_num + 3) in
      context_parts <- collect (range context_start context_end)
                               (context_part parts field_num) ;;
      print ("  " ++ seg ++ " (" ++ str_of_Z total ++ " fields total), field "
             ++ str_of_Z field_num ++ " = " ++ val_display) ;;
      print "  Context:" ;;
      print (join nl context_parts).

Definition verify_field (messages : list (list string)) (field_spec : string)
  : IO unit :=
  match parse_field_spec field_spec with
  | None =>
      print ("Error: invalid field spec '" ++ field_spec
             ++ "'. Use format SEG.N (e.g., RXA.20)") ;;
      sys_exit 1
  | Some (seg_type, field_num) =>
      let seg_type := upper seg_type in
      for_messages messages
        (fun i => "--- Message " ++ str_of_Z (i + 1) ++ " ---")
        false (verify_line seg_type field_num)
  end.

(** ** The command line *)

(** The namespace [argparse] hands to [main]. *)
Record Args : Type := {
  file : string;
  values : bool;
  segment : option string;
  field : option string;
  verify : option string
}.

(** Truth value of an optional string argument: [None] and the empty string
    are false. *)
Definition given (a : option string) : option string :=
  match a with
  | Some s => if truthy s then Some s else None
  | None => None
  end.

(** What [open(path)] followed by [f.read()] does: it yields the text of
    the file, raises [FileNotFoundError], or raises any other exception (the
    path is a directory, the file may not be read, its bytes do not
    decode). *)
Inductive read_result : Type :=
| ReadOk (content : string)
| FileNotFoundError
| ReadFails.

(** [main], for a command line [argparse] accepted.  [fs] is the file system:
    [fs path] is what opening and reading [path] does.  Only
    [FileNotFoundError] is caught. *)
Definition main (fs : string -> read_result) (args : Args) : IO unit :=
  match fs (file args) with
  | FileNotFoundError =>
      print ("Error: file not found: " ++ file args) ;;
      sys_exit 1
  | ReadFails => raise ReadError
  | ReadOk content =>
      let messages := extract_messages content in
      if is_nil messages then
        print "No HL7v2 messages found in file" ;;
        sys_exit 1
      else
        print ("Found " ++ str_of_Z (list_len messages) ++ " message(s)" ++ nl) ;;
        match given (verify args) with
        | Some v => verify_field messages v
        | None =>
            match given (field args) with
            | Some f => show_field messages f
            | None =>
                if values args then show_values messages (segment args)
                else show_structure messages
            end
        end
  end.

(** ** Definitions the statements use *)

(** [parts[0]] of a line. *)
Definition seg_id (line : string) : string := hd EmptyString (split "|" line).

(** The test of the grouping loop. *)
Definition is_header (line : string) : bool := startswith "MSH|" line.

(** A message that opens with a header line, whose segment id is the header
    code. *)
Definition headed (msg : list string) : bool :=
  match msg with
  | line :: _ => (is_header line && String.eqb (seg_id line) "MSH")%bool
  | [] => false
  end.

Definition count_headers (lines : list string) : Z :=
  list_len (filter is_header lines).

(** One more message when the first kept line is not a header line. *)
Definition leading_orphans (lines : list string) : Z :=
  match lines with
  | line :: _ => if is_header line then 0 else 1
  | [] => 0
  end.

(** *** The invariant of the grouping loop *)

(** What holds of [(messages, current)] once the loop has read [seen]. *)
Record group_inv (seen : list string) (messages : list (list string))
    (current : list string) : Prop := {
  inv_concat : (List.concat messages ++ current)%list = seen;
  inv_nonempty : forallb (fun m => negb (is_nil m)) messages = true;
  inv_headed : forallb headed (tl messages) = true;
  inv_current : messages <> [] -> headed current = true;
  inv_count :
    list_len messages + (if is_nil current then 0 else 1)
    = count_headers seen + leading_orphans seen
}.

(** *** How a run ends *)

(** [returns m]: [m] ends without [sys.exit] and without an exception. *)
Definition returns {A : Type} (m : IO A) : Prop := exists a, snd m = inr a.

(** The view the command line selects: Verify before Field, and an empty
    selector selects nothing. *)
Definition selected_spec (args : Args) : option string :=
  match given (verify args) with
  | Some v => Some v
  | None => given (field args)
  end.




(** *** The descriptor, by counting characters *)

(** The number of occurrences of a character. *)
Fixpoint count_char (c : ascii) (s : string) : Z :=
  match s with
  | EmptyString => 0
  | String d r => (if Ascii.eqb d c then 1 else 0) + count_char c r
  end.

(** The number of maximal non-empty stretches free of [c]; [inside] tells
    whether the previous character belongs to such a stretch. *)
Fixpoint count_runs (c : ascii) (inside : bool) (s : string) : Z :=
  match s with
  | EmptyString => 0
  | String d r =>
      if Ascii.eqb d c then count_runs c false r
      else (if inside then 0 else 1) + count_runs c true r
  end.

(** The descriptor in the words of the specification, by counting
    characters: a value with [k] carets has [k + 1] components, the non-empty
    ones are the stretches between the carets; a value with [k] tildes has
    [k + 1] repeats.  Only the empty value is "(empty)". *)
Definition describe_by_counting (value : string) : string :=
  if String.eqb value "" then "(empty)"
  else if 0 <? count_char "^" value then
    "(" ++ str_of_Z (count_runs "^" false value) ++ "/"
    ++ str_of_Z (count_char "^" value + 1) ++ " components)"
  else if 0 <? count_char "~" value then
    "(" ++ str_of_Z (count_char "~" value + 1) ++ " repeats)"
  else "(len=" ++ str_of_Z (Z.of_nat (String.length value)) ++ ")".

(** The fields of a line the Structure view describes, with their numbers:
    those that are not blank after trimming, field 1 of a header apart. *)
Definition described_fields (line : string) : list (Z * string) :=
  filter
    (fun '(j, val) =>
       (negb (String.eqb (seg_id line) "MSH" && (j =? 1))
        && truthy (strip val))%bool)
    (enumerate 1 (skipn 1 (split "|" line))).

(** *** Hiding the content of fields *)

Fixpoint smap (f : ascii -> ascii) (s : string) : string :=
  match s with
  | EmptyString => EmptyString
  | String c r => String (f c) (smap f r)
  end.

(** What is left of a character once its content is hidden: the three
    delimiters and white space stay, any other character becomes [X]. *)
Definition redact_char (c : ascii) : ascii :=
  if (Ascii.eqb c "|" || Ascii.eqb c "^" || Ascii.eqb c "~" || is_space c)%bool
  then c else "X"%char.

(** A line with the content of its fields hidden: the segment id, up to the
    first [|], stays as it is. *)
Fixpoint redact_line (line : string) : string :=
  match line with
  | EmptyString => EmptyString
  | String c r =>
      if Ascii.eqb c "|" then String c (smap redact_char r)
      else String c (redact_line r)
  end.

Definition redact (messages : list (list string)) : list (list string) :=
  map (map redact_line) messages.

(** All field values of a list of messages. *)
Definition field_values (messages : list (list string)) : list string :=
  flat_map (fun line => tl (split "|" line)) (List.concat messages).

(** A stripped string is non-empty exactly when the string has a character
    that is not white space. *)
Fixpoint has_nonspace (s : string) : bool :=
  match s with
  | EmptyString => false
  | String c r => (negb (is_space c) || has_nonspace r)%bool
  end.

(** *** Lower-case letters *)



(** *** The files and command lines of the examples *)

(** The file of the examples: one path, [f], holding [content]. *)
Definition one_file (content : string) : string -> read_result :=
  fun path => if String.eqb path "f" then ReadOk content
              else FileNotFoundError.


Definition args_of (values : bool) (segment field verify : option string)
  : Args :=
  {| file := "f"; values := values; segment := segment;
     field := field; verify := verify |}.

Definition two_messages : string :=
  "MSH|^~\&|A|B" ++ nl ++ "PID|1||12345^^^MR||Doe^John" ++ nl
  ++ "MSH|^~\&|C" ++ nl ++ "PID|2".

Definition header_only : string := "MSH|^~\&|LAB".

Definition rxa_12_fields : string :=
  "RXA|0|1|20240101|20240101|08^DTaP^CVX|0.5|mL||00^new^NIP001||^^^CLINIC|A1".

(** ** Definitions of the further properties *)

(** No line after the first is a header line. *)
Definition header_only_first (msg : list string) : bool :=
  forallb (fun line => negb (is_header line)) (tl msg).

(** [a] is [b] with some characters deleted. *)
Inductive subsequence : string -> string -> Prop :=
| subseq_nil : subsequence EmptyString EmptyString
| subseq_keep (c : ascii) (a b : string) :
    subsequence a b -> subsequence (String c a) (String c b)
| subseq_drop (c : ascii) (a b : string) :
    subsequence a b -> subsequence a (String c b).

(** A line of the Field or Verify view that is read at a negative index
    below the first part: its segment id is the selector's and it has fewer
    than [- field_num] parts. *)
Definition index_too_low (seg_type : list N) (field_num : Z) (line : string)
  : bool :=
  (negb (seg_differs (seg_id line) seg_type)
   && (field_num <? - list_len (split "|" line)))%bool.

(** The line with field 1 replaced by [v], when it is a header line with a
    field 1. *)
Definition replace_header_field_1 (v line : string) : string :=
  match split "|" line with
  | seg :: _ :: rest =>
      if String.eqb seg "MSH" then join "|" (seg :: v :: rest) else line
  | _ => line
  end.

(** What the Verify view shows for part [j] of a line. *)
Definition shown_part (parts : list string) (j : Z) : string :=
  let v := nth (Z.to_nat j) parts EmptyString in
  if truthy (strip v) then v else "(empty)".

(** A string that is empty or begins with a character that is not white
    space. *)
Definition starts_nonspace (s : string) : bool :=
  match s with
  | EmptyString => true
  | String c _ => negb (is_space c)
  end.

(** ** The model on concrete inputs *)

Example structure_of_one_message :
  main (one_file ("MSH|^~\&|A|B" ++ nl ++ "PID|1||12345^^^MR||Doe^John" ++ nl))
       (args_of false None None None)
  = (["Found 1 message(s)" ++ nl;
      "  MSH (3 fields) populated: 2(len=1), 3(len=1)";
      "  PID (5 fields) populated: 1(len=1), 3(2/4 components), "
      ++ "5(2/2 components)"], inr tt).
Proof. vm_compute. reflexivity. Qed.

Example field_with_components :
  show_field [["PID|1||12345^^^MR||Doe^John"]] "PID.5"
  = (["  PID-5: Doe^John"; "    .1: Doe"; "    .2: John"], inr tt).
Proof. vm_compute. reflexivity. Qed.

Example no_messages_found :
  main (one_file (nl ++ "ZZZ|1|2" ++ nl ++ "   " ++ nl ++ "hello"))
       (args_of false None None None)
  = (["No HL7v2 messages found in file"], inl (SystemExit 1)).
Proof. vm_compute. reflexivity. Qed.

Example values_of_an_absent_segment :
  main (one_file ("MSH|^~\&|A|B" ++ nl ++ "PID|1"))
       (args_of true (Some "NK1") None None)
  = (["Found 1 message(s)" ++ nl], inr tt).
Proof. vm_compute. reflexivity. Qed.

Example values_with_repeats :
  show_values [["PID|a~b^c~d| x"]] (Some "PID")
  = (["  PID:"; "    Field 1: C1=a~b | C2=c~d"; "    Field 2:  x"], inr tt)
  /\ show_values [["NK1|a~b|c^d~e"]] None
     = (["  NK1:"; "    Field 1[1]: a"; "    Field 1[2]: b";
         "    Field 2: C1=c | C2=d~e"], inr tt).
Proof. vm_compute. split; reflexivity. Qed.

Example verify_shows_a_window :
  verify_field [["PID|1||12345^^^MR||Doe^John"]] "pid.3"
  = (["  PID (5 fields total), field 3 = 12345^^^MR"; "  Context:";
      "    Field 1: 1" ++ nl ++ "    Field 2: (empty)" ++ nl
      ++ "    Field 3: 12345^^^MR <<< " ++ nl ++ "    Field 4: (empty)" ++ nl
      ++ "    Field 5: Doe^John"], inr tt).
Proof. vm_compute. reflexivity. Qed.

Example rtf_wrapper_is_stripped :
  strip_rtf ("{\rtf1\ansi\deff0 {\fonttbl}MSH|^~\&|A\par " ++ nl
             ++ "PID|1\par}")
  = "MSH|^~\&|A" ++ nl ++ "PID|1".
Proof. vm_compute. reflexivity. Qed.

Example selectors_parsed :
  parse_field_spec "RXA.6" = Some ("RXA", 6)
  /\ parse_field_spec "rxa. 1_0 " = Some ("rxa", 10)
  /\ parse_field_spec "RXA.-2" = Some ("RXA", -2)
  /\ parse_field_spec "RXA" = None
  /\ parse_field_spec "RXA.6.1" = None
  /\ parse_field_spec "RXA.six" = None
  /\ parse_field_spec "RXA." = None.
Proof. vm_compute. repeat split; reflexivity. Qed.

(** ** Basic facts about the string primitives *)

Lemma split_not_nil (sep : ascii) (s : string) : split sep s <> [].
Proof.
  destruct s as [|c r]; simpl; [discriminate|].
  destruct (Ascii.eqb c sep); [discriminate|].
  destruct (split sep r); discriminate.
Qed.

Lemma split_cons (sep : ascii) (s : string) :
  exists p ps, split sep s = p :: ps.
Proof.
  destruct (split sep s) as [|p ps] eqn:E.
  - now apply split_not_nil in E.
  - now exists p, ps.
Qed.

Lemma join_cons_cons (sep p q : string) (ps : list string) :
  join sep (p :: q :: ps) = p ++ sep ++ join sep (q :: ps).
Proof. reflexivity. Qed.

Lemma join_split (sep : ascii) (s : string) :
  join (String sep "") (split sep s) = s.
Proof.
  induction s as [|c r IH]; simpl; [reflexivity|].
  destruct (Ascii.eqb_spec c sep) as [->|Hne].
  - destruct (split_cons sep r) as (p & ps & E).
    rewrite E in *. rewrite join_cons_cons. rewrite IH. reflexivity.
  - destruct (split_cons sep r) as (p & ps & E).
    rewrite E in *. destruct ps as [|q ps].
    + simpl in *. now subst.
    + rewrite join_cons_cons. rewrite join_cons_cons in IH.
      rewrite <- IH. reflexivity.
Qed.

Lemma hd_tl_split (sep : ascii) (s : string) :
  hd EmptyString (split sep s) :: tl (split sep s) = split sep s.
Proof. destruct (split_cons sep s) as (p & ps & ->). reflexivity. Qed.

(** ** Facts about the output monad *)

Lemma bind_ret_l {A B : Type} (a : A) (k : A -> IO B) : bind (ret a) k = k a.
Proof. unfold bind, ret. destruct (k a). reflexivity. Qed.

Lemma index_split_0 (sep : ascii) (s : string) :
  index (split sep s) 0 = ret (hd EmptyString (split sep s)).
Proof. destruct (split_cons sep s) as (p & ps & ->). reflexivity. Qed.

(** ** The grouping loop *)

Section Grouping.

Lemma is_header_seg_id (line : string) :
  is_header line = true -> seg_id line = "MSH".
Proof.
  unfold is_header, seg_id. intros H.
  destruct line as [|a line]; cbn [startswith] in H; [discriminate H|].
  destruct (Ascii.eqb_spec "M" a) as [<-|]; [|discriminate H].
  destruct line as [|b line]; cbn [startswith andb] in H; [discriminate H|].
  destruct (Ascii.eqb_spec "S" b) as [<-|]; [|discriminate H].
  destruct line as [|c line]; cbn [startswith andb] in H; [discriminate H|].
  destruct (Ascii.eqb_spec "H" c) as [<-|]; [|discriminate H].
  destruct line as [|d line]; cbn [startswith andb] in H; [discriminate H|].
  destruct (Ascii.eqb_spec "|" d) as [<-|]; [|discriminate H].
  reflexivity.
Qed.

Lemma headed_single (line : string) :
  is_header line = true -> headed [line] = true.
Proof.
  intros H. simpl. rewrite H, (is_header_seg_id _ H). reflexivity.
Qed.

Lemma headed_app (m : list string) (line : string) :
  headed m = true -> headed (m ++ [line]) = true.
Proof. destruct m; [discriminate|]. auto. Qed.

Lemma count_headers_snoc (seen : list string) (line : string) :
  count_headers (seen ++ [line])
  = count_headers seen + (if is_header line then 1 else 0).
Proof.
  unfold count_headers, list_len. rewrite filter_app, length_app. simpl.
  destruct (is_header line); simpl; lia.
Qed.

Lemma leading_orphans_snoc (seen : list string) (line : string) :
  leading_orphans (seen ++ [line])
  = match seen with
    | [] => if is_header line then 0 else 1
    | _ :: _ => leading_orphans seen
    end.
Proof. destruct seen; reflexivity. Qed.

Lemma list_len_snoc {A : Type} (xs : list A) (x : A) :
  list_len (xs ++ [x]) = list_len xs + 1.
Proof. unfold list_len. rewrite length_app. simpl. lia. Qed.

Lemma group_inv_init : group_inv [] [] [].
Proof. constructor; try reflexivity. intros H. now elim H. Qed.

Lemma group_inv_step (seen : list string) (messages : list (list string))
    (current : list string) (line : string) :
  group_inv seen messages current ->
  let (messages', current') := group_step (messages, current) line in
  group_inv (seen ++ [line]) messages' current'.
Proof.
  intros [Hc Hn Hh Hcur Hcnt]. unfold group_step.
  destruct (startswith "MSH|" line) eqn:Hhd.
  - (* a header line closes the open message *)
    unfold close_current. destruct current as [|l0 cur]; cbn [is_nil] in *.
    + constructor.
      * rewrite app_nil_r in Hc. now rewrite Hc.
      * exact Hn.
      * exact Hh.
      * intros _. now apply headed_single.
      * rewrite count_headers_snoc, leading_orphans_snoc.
        unfold is_header. rewrite Hhd. cbn [is_nil].
        destruct seen; [|lia]. simpl in *. lia.
    + constructor.
      * rewrite concat_app. simpl. rewrite app_nil_r. now rewrite Hc.
      * rewrite forallb_app, Hn. reflexivity.
      * destruct messages as [|m0 ms]; [reflexivity|].
        cbn [app tl] in *. rewrite forallb_app, Hh. cbn [forallb andb].
        rewrite Hcur by discriminate. reflexivity.
      * intros _. now apply headed_single.
      * rewrite count_headers_snoc, leading_orphans_snoc, list_len_snoc.
        unfold is_header. rewrite Hhd. cbn [is_nil].
        destruct seen as [|s0 seen'].
        -- apply app_eq_nil in Hc as [_ Hc]. discriminate Hc.
        -- lia.
  - (* any other line joins the open message *)
    constructor.
    + rewrite app_assoc. now rewrite Hc.
    + exact Hn.
    + exact Hh.
    + intros Hm. apply headed_app. now apply Hcur.
    + rewrite count_headers_snoc, leading_orphans_snoc.
      unfold is_header. rewrite Hhd.
      assert (is_nil (current ++ [line]) = false) as -> by now destruct current.
      destruct current as [|l0 cur]; cbn [is_nil] in *.
      * destruct messages as [|m0 ms].
        -- simpl in Hc. subst seen. simpl in *. lia.
        -- specialize (Hcur ltac:(discriminate)). discriminate Hcur.
      * destruct seen as [|s0 seen'].
        -- apply app_eq_nil in Hc as [_ Hc]. discriminate Hc.
        -- lia.
Qed.

Lemma group_inv_fold (lines : list string) :
  let (messages, current) := fold_left group_step lines ([], []) in
  group_inv lines messages current.
Proof.
  induction lines as [|line seen IH] using rev_ind.
  - exact group_inv_init.
  - rewrite fold_left_app. simpl.
    destruct (fold_left group_step seen ([], [])) as [messages current].
    now apply group_inv_step.
Qed.

(** The shape of what the grouping loop returns. *)
Lemma group_messages_shape (lines : list string) :
  let msgs := group_messages lines in
  forallb (fun m => negb (is_nil m)) msgs = true
  /\ List.concat msgs = lines
  /\ forallb headed (tl msgs) = true
  /\ list_len msgs = count_headers lines + leading_orphans lines.
Proof.
  unfold group_messages. pose proof (group_inv_fold lines) as H.
  destruct (fold_left group_step lines ([], [])) as [messages current].
  destruct H as [Hc Hn Hh Hcur Hcnt]. unfold close_current.
  destruct current as [|l0 cur]; cbn [is_nil] in *.
  - rewrite app_nil_r in Hc. repeat split; auto. lia.
  - repeat split.
    + rewrite forallb_app, Hn. reflexivity.
    + rewrite concat_app. simpl. now rewrite app_nil_r.
    + destruct messages as [|m0 ms]; [reflexivity|].
      cbn [app tl] in *. rewrite forallb_app, Hh. cbn [forallb andb].
      rewrite Hcur by discriminate. reflexivity.
    + rewrite list_len_snoc. lia.
Qed.

End Grouping.

(** ** The extractor and the reported count *)

Lemma fst_print_bind {B : Type} (s : string) (k : unit -> IO B) :
  fst (bind (print s) k) = s :: fst (k tt).
Proof. unfold bind, print. destruct (k tt). reflexivity. Qed.

Lemma snd_print_bind {B : Type} (s : string) (k : unit -> IO B) :
  snd (bind (print s) k) = snd (k tt).
Proof. unfold bind, print. destruct (k tt). reflexivity. Qed.

Lemma all_headed_iff (msgs : list (list string)) (lines : list string) :
  forallb (fun m => negb (is_nil m)) msgs = true ->
  List.concat msgs = lines ->
  forallb headed (tl msgs) = true ->
  forallb headed msgs = (leading_orphans lines =? 0).
Proof.
  intros Hn Hc Hh. destruct msgs as [|m0 ms].
  - simpl in Hc. subst lines. reflexivity.
  - cbn [forallb tl] in *. rewrite Hh, andb_true_r.
    destruct m0 as [|l0 m0]; [discriminate Hn|].
    simpl in Hc. subst lines. cbn [headed leading_orphans].
    destruct (is_header l0) eqn:Hl0; [|reflexivity].
    rewrite (is_header_seg_id _ Hl0). reflexivity.
Qed.

(** C1, as the code has it.  Every message is a non-empty run of the kept
    lines, in their order; every message after the first opens with a line
    that starts with [MSH|], whose segment id is MSH, and so does the first
    exactly when the first kept line does; the count in the first line of the
    output is the number of kept lines that start with [MSH|], plus one when
    the first kept line does not. *)
Theorem extract_messages_shape
    (fs : string -> read_result) (args : Args) (content : string) :
  fs (file args) = ReadOk content ->
  let lines := segment_lines content in
  let msgs := extract_messages content in
  forallb (fun m => negb (is_nil m)) msgs = true
  /\ List.concat msgs = lines
  /\ forallb headed (tl msgs) = true
  /\ forallb headed msgs = (leading_orphans lines =? 0)
  /\ list_len msgs = count_headers lines + leading_orphans lines
  /\ hd EmptyString (fst (main fs args))
     = if is_nil msgs then "No HL7v2 messages found in file"
       else "Found " ++ str_of_Z (count_headers lines + leading_orphans lines)
            ++ " message(s)" ++ nl.
Proof.
  intros Hfs lines msgs. subst msgs lines.
  destruct (group_messages_shape (segment_lines content))
    as (Hn & Hc & Hh & Hcnt).
  cbv zeta in Hn, Hc, Hh, Hcnt. unfold main. rewrite Hfs.
  unfold extract_messages.
  repeat split; auto.
  - now apply all_headed_iff.
  - destruct (is_nil (group_messages (segment_lines content)));
      rewrite fst_print_bind; [reflexivity|].
    now rewrite Hcnt.
Qed.

Lemma extract_messages_shape_witness :
  one_file two_messages "f" = ReadOk two_messages
  /\ List.concat (extract_messages two_messages)
     = segment_lines two_messages
  /\ list_len (extract_messages two_messages) = 2
  /\ hd EmptyString
       (fst (main (one_file two_messages) (args_of false None None None)))
     = "Found 2 message(s)" ++ nl.
Proof.
  pose proof (extract_messages_shape (one_file two_messages)
                (args_of false None None None) two_messages eq_refl) as H.
  destruct H as (_ & Hc & _ & _ & Hcnt & Hout).
  split; [reflexivity|]. split; [exact Hc|].
  split; [rewrite Hcnt | rewrite Hout]; vm_compute; reflexivity.
Defined.

(** C1 as it is stated fails on a file whose first kept line is not a header:
    its lines form a message that opens with PID, and one message is reported
    where no header line was kept. *)
Lemma extract_messages_orphan_first :
  extract_messages "PID|1" = [["PID|1"]]
  /\ forallb headed (extract_messages "PID|1") = false
  /\ seg_id "PID|1" = "PID"
  /\ fst (main (one_file "PID|1") (args_of false None None None))
     = ["Found 1 message(s)" ++ nl; "  PID (1 fields) populated: 1(len=1)"]
  /\ filter (fun line => String.eqb (strip (seg_id line)) "MSH")
       (segment_lines "PID|1") = [].
Proof. vm_compute. repeat split; reflexivity. Qed.

(** ** Header-like text with no delimiter *)

(** C3 on the code: a line that is just [MSH] has no delimiter, and it is
    kept all the same, because MSH is itself one of [SEGMENT_NAMES] and the
    membership test comes first; the file is then reported to hold one
    message. *)
Theorem bare_header_is_retained :
  contains "|" "MSH" = false
  /\ in_names "MSH" = true
  /\ retained "MSH" = true
  /\ segment_lines "MSH" = ["MSH"]
  /\ extract_messages "MSH" = [["MSH"]]
  /\ main (one_file "MSH") (args_of false None None None)
     = (["Found 1 message(s)" ++ nl; "  MSH (0 fields) populated: "], inr tt).
Proof. vm_compute. repeat split; reflexivity. Qed.

(** ** The encoding characters of the header *)

(** C2 on the code: the Structure view leaves field 1 of MSH out and the
    Values view prints a placeholder for it, but the Field view and the Verify
    view print its characters, and the Field view splits them at the caret. *)
Theorem header_field_1_in_the_views :
  show_structure (extract_messages header_only)
  = (["  MSH (2 fields) populated: 2(len=3)"], inr tt)
  /\ show_values (extract_messages header_only) None
     = (["  MSH:"; "    Field 1: (encoding chars)"; "    Field 2: LAB"], inr tt)
  /\ show_field (extract_messages header_only) "MSH.1"
     = (["  MSH-1: ^~\&"; "    .1: (empty)"; "    .2: ~\&"], inr tt)
  /\ fst (verify_field (extract_messages header_only) "MSH.1")
     = ["  MSH (2 fields total), field 1 = ^~\&"; "  Context:";
        "    Field 1: ^~\& <<< " ++ nl ++ "    Field 2: LAB"].
Proof. vm_compute. repeat split; reflexivity. Qed.

(** ** Splitting a line loses nothing *)

(** C8.  For every line of every extracted message, the segment id and the
    fields, joined again with [|], give the line back. *)
Theorem split_join_roundtrip (content : string) :
  Forall
    (Forall (fun line =>
               join "|" (seg_id line :: tl (split "|" line)) = line))
    (extract_messages content).
Proof.
  apply Forall_forall. intros msg _. apply Forall_forall. intros line _.
  unfold seg_id. rewrite hd_tl_split. apply join_split.
Qed.

(** ** Computations that end normally *)

Create HintDb io_returns.

Lemma returns_ret {A : Type} (a : A) : returns (ret a).
Proof. now exists a. Qed.

Lemma returns_print (s : string) : returns (print s).
Proof. now exists tt. Qed.

Lemma returns_bind {A B : Type} (m : IO A) (k : A -> IO B) :
  returns m -> (forall a, returns (k a)) -> returns (bind m k).
Proof.
  intros [a Ha] Hk. destruct m as [out [e|a']]; simpl in Ha; [discriminate|].
  destruct (Hk a') as [b Hb]. exists b. unfold bind.
  destruct (k a') as [out' r]. exact Hb.
Qed.

Lemma returns_when (b : bool) (m : IO unit) : returns m -> returns (when b m).
Proof. destruct b; simpl; auto using returns_ret. Qed.

Lemma returns_for_each {A : Type} (xs : list A) (body : A -> IO unit) :
  (forall x, In x xs -> returns (body x)) -> returns (for_each xs body).
Proof.
  induction xs as [|x r IH]; intros H; simpl.
  - apply returns_ret.
  - apply returns_bind; [apply H; now left|].
    intros _. apply IH. intros y Hy. apply H. now right.
Qed.

Lemma returns_collect {A B : Type} (xs : list A) (f : A -> IO B) :
  (forall x, In x xs -> returns (f x)) -> returns (collect xs f).
Proof.
  induction xs as [|x r IH]; intros H; simpl.
  - apply returns_ret.
  - apply returns_bind; [apply H; now left|]. intros y.
    apply returns_bind; [apply IH; intros z Hz; apply H; now right|].
    intros ys. apply returns_ret.
Qed.

Lemma returns_unit (m : IO unit) : returns m -> snd m = inr tt.
Proof. intros [[] H]. exact H. Qed.

#[local] Hint Resolve returns_ret returns_print returns_when : io_returns.

Lemma returns_for_messages (messages : list (list string))
    (header : Z -> string) (trailer : bool) (body : string -> IO unit) :
  (forall msg line, In msg messages -> In line msg -> returns (body line)) ->
  returns (for_messages messages header trailer body).
Proof.
  intros H. unfold for_messages. apply returns_for_each.
  intros [i msg] Hin. apply returns_bind.
  - apply returns_when. apply returns_print.
  - intros _. apply returns_bind.
    + apply returns_for_each. intros line Hline.
      apply (H msg); [|exact Hline].
      clear -Hin. generalize dependent 0.
      induction messages as [|m ms IH]; intros start Hin; [destruct Hin|].
      destruct Hin as [Heq|Hin]; [left; congruence | right; eauto].
    + intros _. auto with io_returns.
Qed.

(** In-range accesses succeed. *)
Lemma index_in_range {A : Type} (xs : list A) (i : Z) :
  0 <= i < list_len xs -> exists x, index xs i = ret x.
Proof.
  unfold list_len, index, getitem. intros Hi.
  assert ((0 <=? i) = true) as -> by lia.
  assert ((i <? Z.of_nat (List.length xs)) = true) as -> by lia.
  cbn [andb]. destruct (nth_error xs (Z.to_nat i)) as [x|] eqn:E.
  - now exists x.
  - apply nth_error_None in E. lia.
Qed.

Lemma returns_index {A : Type} (xs : list A) (i : Z) :
  0 <= i < list_len xs -> returns (index xs i).
Proof.
  intros Hi. destruct (index_in_range xs i Hi) as [x ->]. apply returns_ret.
Qed.

Lemma in_range_from (lo : Z) (n : nat) (j : Z) :
  In j (range_from lo n) -> lo <= j < lo + Z.of_nat n.
Proof.
  revert lo. induction n as [|n IH]; intros lo H; [destruct H|].
  destruct H as [<-|H]; [lia|]. apply IH in H. lia.
Qed.

Lemma in_range_bounds (lo hi j : Z) : In j (range lo hi) -> lo <= j < hi.
Proof. unfold range. intros H. apply in_range_from in H. lia. Qed.

Lemma cp_eqb_refl (a : list N) : cp_eqb a a = true.
Proof. unfold cp_eqb. destruct (list_eq_dec N.eq_dec a a); congruence. Qed.

(** ** The Verify view *)

Lemma bind_ret_r (m : IO unit) : bind m (fun _ => ret tt) = m.
Proof.
  destruct m as [out [e|[]]]; simpl; [reflexivity|]. now rewrite app_nil_r.
Qed.

(** One message of one line: no frame is printed around it. *)
Lemma for_messages_single (line : string) (header : Z -> string)
    (trailer : bool) (body : string -> IO unit) :
  for_messages [[line]] header trailer body = body line.
Proof.
  unfold for_messages. cbn -[bind]. rewrite bind_ret_l.
  rewrite !bind_ret_r. reflexivity.
Qed.

Lemma verify_line_beyond_end (seg_type : list N) (line : string) (k : Z) :
  codepoints (seg_id line) = seg_type ->
  1 <= k ->
  let total := list_len (split "|" line) - 1 in
  verify_line seg_type (total + k) line
  = (["  " ++ seg_id line ++ ": has " ++ str_of_Z total
      ++ " fields, requested field " ++ str_of_Z (total + k)
      ++ " is beyond end";
      "  Need " ++ str_of_Z k ++ " more pipes to reach field "
      ++ str_of_Z (total + k)], inr tt).
Proof.
  intros Hseg Hk total. unfold verify_line.
  rewrite index_split_0, bind_ret_l. fold (seg_id line).
  unfold seg_differs. rewrite Hseg, cp_eqb_refl. cbn [negb].
  fold total. assert ((total <? total + k) = true) as -> by lia.
  replace (total + k - total) with k by lia. reflexivity.
Qed.

(** C4.  On a line whose segment id is the selector's, upper-cased, and
    which has [total] fields, asking for field [total + k] with [k >= 1]
    prints that the field is beyond the end, with the field count, and that
    [k] more pipes are needed. *)
Theorem verify_reports_shortfall
    (field_spec seg_sel line : string) (k : Z) :
  let total := list_len (split "|" line) - 1 in
  parse_field_spec field_spec = Some (seg_sel, total + k) ->
  codepoints (seg_id line) = upper seg_sel ->
  1 <= k ->
  let report :=
    ["  " ++ seg_id line ++ ": has " ++ str_of_Z total
     ++ " fields, requested field " ++ str_of_Z (total + k)
     ++ " is beyond end";
     "  Need " ++ str_of_Z k ++ " more pipes to reach field "
     ++ str_of_Z (total + k)] in
  verify_line (upper seg_sel) (total + k) line = (report, inr tt)
  /\ verify_field [[line]] field_spec = (report, inr tt).
Proof.
  intros total Hparse Hseg Hk report.
  pose proof (verify_line_beyond_end (upper seg_sel) line k Hseg Hk) as H.
  split; [exact H|].
  unfold verify_field. rewrite Hparse. rewrite for_messages_single. exact H.
Qed.

Lemma verify_reports_shortfall_witness :
  verify_field [[rxa_12_fields]] "RXA.20"
  = (["  RXA: has 12 fields, requested field 20 is beyond end";
      "  Need 8 more pipes to reach field 20"], inr tt).
Proof.
  apply (verify_reports_shortfall "RXA.20" "RXA" rxa_12_fields 8).
  - vm_compute. reflexivity.
  - vm_compute. reflexivity.
  - lia.
Defined.

Lemma returns_context_part (parts : list string) (field_num j : Z) :
  0 <= j -> returns (context_part parts field_num j).
Proof.
  intros Hj. unfold context_part. apply returns_bind.
  - destruct (j <? list_len parts) eqn:E; [|apply returns_ret].
    apply returns_index. lia.
  - intros v. apply returns_ret.
Qed.

Lemma returns_verify_line (seg_type : list N) (field_num : Z) (line : string) :
  0 <= field_num -> returns (verify_line seg_type field_num line).
Proof.
  intros Hn. unfold verify_line.
  rewrite index_split_0, bind_ret_l.
  destruct (seg_differs _ seg_type); [apply returns_ret|].
  destruct (list_len (split "|" line) - 1 <? field_num).
  - apply returns_bind; [apply returns_print|]. intros _. apply returns_print.
  - apply returns_bind.
    + destruct (field_num <? list_len (split "|" line)) eqn:E;
        [|apply returns_ret].
      apply returns_index. lia.
    + intros val. apply returns_bind.
      * apply returns_collect. intros j Hj. apply returns_context_part.
        apply in_range_bounds in Hj. lia.
      * intros ctx. repeat (apply returns_bind; [apply returns_print|intros _]).
        apply returns_print.
Qed.

(** C9.  When the field number is at least 1, the Verify view ends normally
    on every list of messages.  On each line either the field number exceeds
    the field count, and nothing of the line is read but its segment id, or
    the field number and every index of the context window are valid indices
    of the split line. *)
Theorem verify_field_stays_in_range
    (messages : list (list string)) (field_spec seg_sel : string) (n : Z) :
  parse_field_spec field_spec = Some (seg_sel, n) ->
  1 <= n ->
  snd (verify_field messages field_spec) = inr tt
  /\ Forall
       (Forall (fun line =>
          let parts := split "|" line in
          let total := list_len parts - 1 in
          snd (verify_line (upper seg_sel) n line) = inr tt
          /\ (total < n \/
              (0 <= n < list_len parts
               /\ Forall (fun j => 1 <= j < list_len parts)
                    (range (Z.max 1 (n - 2)) (Z.min (total + 1) (n + 3)))))))
       messages.
Proof.
  intros Hparse Hn. split.
  - unfold verify_field. rewrite Hparse. apply returns_unit.
    apply returns_for_messages. intros msg line _ _.
    apply returns_verify_line. lia.
  - apply Forall_forall. intros msg _. apply Forall_forall. intros line _.
    cbv zeta. split.
    + apply returns_unit, returns_verify_line. lia.
    + destruct (Z_lt_ge_dec (list_len (split "|" line) - 1) n) as [Hlt|Hge];
        [now left|right].
      split; [lia|]. apply Forall_forall. intros j Hj.
      apply in_range_bounds in Hj. lia.
Qed.

Lemma verify_field_stays_in_range_witness :
  snd (verify_field (extract_messages two_messages) "pid.3") = inr tt.
Proof.
  apply (verify_field_stays_in_range (extract_messages two_messages)
           "pid.3" "pid" 3).
  - vm_compute. reflexivity.
  - lia.
Defined.

(** ** How a run ends *)

Lemma returns_structure_line (line : string) : returns (structure_line line).
Proof.
  unfold structure_line. rewrite index_split_0, bind_ret_l.
  apply returns_print.
Qed.

Lemma returns_values_field (seg : string) (j : Z) (val : string) :
  returns (values_field seg j val).
Proof.
  unfold values_field.
  destruct (String.eqb seg "MSH" && (j =? 1))%bool; [apply returns_print|].
  destruct (truthy (strip val)); [|apply returns_ret].
  destruct (contains "^" val); [apply returns_print|].
  destruct (contains "~" val); [|apply returns_print].
  apply returns_for_each. intros [r_idx repeat] _.
  destruct (contains "^" repeat); apply returns_print.
Qed.

Lemma returns_values_line (segment_filter : option string) (line : string) :
  returns (values_line segment_filter line).
Proof.
  unfold values_line. rewrite index_split_0, bind_ret_l.
  destruct (filtered_out segment_filter _); [apply returns_ret|].
  apply returns_bind; [apply returns_print|]. intros _.
  apply returns_for_each. intros [j val] _. apply returns_values_field.
Qed.





(** ** The descriptor of the Structure view *)

Lemma count_char_nonneg (c : ascii) (s : string) : 0 <= count_char c s.
Proof.
  induction s as [|d r IH]; cbn [count_char]; [lia|].
  destruct (Ascii.eqb d c); lia.
Qed.

Lemma contains_count_char (c : ascii) (s : string) :
  contains c s = (0 <? count_char c s).
Proof.
  induction s as [|d r IH]; [reflexivity|].
  pose proof (count_char_nonneg c r). cbn [contains count_char].
  destruct (Ascii.eqb d c); cbn [orb].
  - symmetry. apply Z.ltb_lt. lia.
  - rewrite IH. reflexivity.
Qed.

Lemma list_len_split (c : ascii) (s : string) :
  list_len (split c s) = count_char c s + 1.
Proof.
  unfold list_len. induction s as [|d r IH]; [reflexivity|].
  cbn [split count_char]. destruct (Ascii.eqb d c).
  - cbn [List.length]. lia.
  - destruct (split_cons c r) as (p & ps & E). rewrite E in *.
    cbn [List.length] in *. lia.
Qed.

Lemma count_true_cons (f : string -> bool) (x : string) (xs : list string) :
  count_true f (x :: xs) = (if f x then 1 else 0) + count_true f xs.
Proof.
  unfold count_true. simpl. destruct (f x); cbn [List.length]; lia.
Qed.

Lemma count_runs_split (c : ascii) (s : string) :
  count_runs c false s = count_true truthy (split c s)
  /\ count_runs c true s = count_true truthy (tl (split c s)).
Proof.
  induction s as [|d r [IHf IHt]]; [split; reflexivity|].
  cbn [split count_runs]. destruct (Ascii.eqb d c).
  - cbn [tl]. rewrite count_true_cons. cbn [truthy]. split; [lia|exact IHf].
  - destruct (split_cons c r) as (p & ps & E). rewrite E in *.
    cbn [tl] in *. rewrite count_true_cons. cbn [truthy]. split; lia.
Qed.

Lemma truthy_eqb (s : string) : negb (truthy s) = String.eqb s "".
Proof. destruct s; reflexivity. Qed.

Lemma describe_counting_eq (value : string) :
  describe_component value = describe_by_counting value.
Proof.
  unfold describe_component, describe_by_counting.
  rewrite truthy_eqb, !contains_count_char, !list_len_split.
  destruct (count_runs_split "^" value) as [<- _]. reflexivity.
Qed.

(** C7 as it is stated fails on values of white space only. *)
Lemma describe_component_blank :
  strip " " = "" /\ describe_component " " = "(len=1)"
  /\ describe_component " ^ " = "(2/2 components)"
  /\ describe_component " ~ " = "(2 repeats)".
Proof. vm_compute. repeat split; reflexivity. Qed.

(** ** The Structure view does not depend on field content *)

Section Redaction.

Lemma redact_char_space (c : ascii) : is_space (redact_char c) = is_space c.
Proof. destruct c as [[] [] [] [] [] [] [] []]; reflexivity. Qed.

Lemma redact_char_pipe (c : ascii) :
  Ascii.eqb (redact_char c) "|" = Ascii.eqb c "|".
Proof. destruct c as [[] [] [] [] [] [] [] []]; reflexivity. Qed.

Lemma redact_char_caret (c : ascii) :
  Ascii.eqb (redact_char c) "^" = Ascii.eqb c "^".
Proof. destruct c as [[] [] [] [] [] [] [] []]; reflexivity. Qed.

Lemma redact_char_tilde (c : ascii) :
  Ascii.eqb (redact_char c) "~" = Ascii.eqb c "~".
Proof. destruct c as [[] [] [] [] [] [] [] []]; reflexivity. Qed.

(** A character map that sends the separator, and nothing else, to the
    separator commutes with splitting and keeps the counts. *)
Section MapKeepsSeparator.

Variable f : ascii -> ascii.
Variable sep : ascii.
Hypothesis f_sep : forall c, Ascii.eqb (f c) sep = Ascii.eqb c sep.

Lemma split_smap (s : string) :
  split sep (smap f s) = map (smap f) (split sep s).
Proof.
  induction s as [|c r IH]; [reflexivity|].
  cbn [smap split]. rewrite f_sep, IH.
  destruct (Ascii.eqb c sep); [reflexivity|].
  destruct (split_cons sep r) as (p & ps & ->). reflexivity.
Qed.

Lemma count_char_smap (s : string) :
  count_char sep (smap f s) = count_char sep s.
Proof.
  induction s as [|c r IH]; [reflexivity|].
  cbn [smap count_char]. now rewrite f_sep, IH.
Qed.

Lemma count_runs_smap (s : string) (inside : bool) :
  count_runs sep inside (smap f s) = count_runs sep inside s.
Proof.
  revert inside. induction s as [|c r IH]; intros inside; [reflexivity|].
  cbn [smap count_runs]. now rewrite f_sep, !IH.
Qed.

End MapKeepsSeparator.

Lemma split_redact_line (line : string) :
  split "|" (redact_line line)
  = seg_id line :: map (smap redact_char) (tl (split "|" line)).
Proof.
  unfold seg_id. induction line as [|c r IH]; [reflexivity|].
  cbn [redact_line split]. destruct (Ascii.eqb c "|") eqn:E.
  - cbn [split]. rewrite E. cbn [hd tl].
    now rewrite (split_smap redact_char "|" redact_char_pipe).
  - cbn [split]. rewrite E, IH.
    destruct (split_cons "|" r) as (p & ps & ->). reflexivity.
Qed.

Lemma truthy_rstrip (s : string) : truthy (rstrip s) = has_nonspace s.
Proof.
  induction s as [|c r IH]; [reflexivity|]. cbn [rstrip has_nonspace].
  rewrite <- IH. destruct (rstrip r); [|now rewrite orb_true_r].
  destruct (is_space c); reflexivity.
Qed.

Lemma has_nonspace_lstrip (s : string) :
  has_nonspace (lstrip s) = has_nonspace s.
Proof.
  induction s as [|c r IH]; [reflexivity|]. cbn [lstrip has_nonspace].
  destruct (is_space c) eqn:E; [exact IH|].
  cbn [has_nonspace]. now rewrite E.
Qed.

Lemma truthy_strip (s : string) : truthy (strip s) = has_nonspace s.
Proof. unfold strip. now rewrite truthy_rstrip, has_nonspace_lstrip. Qed.

Lemma has_nonspace_redact (s : string) :
  has_nonspace (smap redact_char s) = has_nonspace s.
Proof.
  induction s as [|c r IH]; [reflexivity|]. cbn [smap has_nonspace].
  now rewrite redact_char_space, IH.
Qed.

Lemma length_smap (f : ascii -> ascii) (s : string) :
  String.length (smap f s) = String.length s.
Proof. induction s as [|c r IH]; [reflexivity|]. simpl. now rewrite IH. Qed.

Lemma describe_component_redact (value : string) :
  describe_component (smap redact_char value) = describe_component value.
Proof.
  rewrite !describe_counting_eq. unfold describe_by_counting.
  rewrite (count_char_smap _ _ redact_char_caret).
  rewrite (count_char_smap _ _ redact_char_tilde).
  rewrite (count_runs_smap _ _ redact_char_caret), length_smap.
  destruct value; reflexivity.
Qed.

Lemma populated_redact (seg : string) (fields : list string) (start : Z) :
  flat_map
    (fun '(j, val) =>
       if (String.eqb seg "MSH" && (j =? 1))%bool then []
       else if truthy (strip val)
            then [str_of_Z j ++ describe_component val]
            else [])
    (enumerate start (map (smap redact_char) fields))
  = flat_map
      (fun '(j, val) =>
         if (String.eqb seg "MSH" && (j =? 1))%bool then []
         else if truthy (strip val)
              then [str_of_Z j ++ describe_component val]
              else [])
      (enumerate start fields).
Proof.
  revert start. induction fields as [|v r IH]; intros start; [reflexivity|].
  cbn [map enumerate flat_map]. rewrite IH.
  now rewrite !truthy_strip, has_nonspace_redact, describe_component_redact.
Qed.

Lemma if_same {A : Type} (b : bool) (x : A) : (if b then x else x) = x.
Proof. now destruct b. Qed.

Lemma index_cons_0 {A : Type} (x : A) (xs : list A) :
  index (x :: xs) 0 = ret x.
Proof. reflexivity. Qed.

Lemma structure_line_redact (line : string) :
  structure_line (redact_line line) = structure_line line.
Proof.
  unfold structure_line. rewrite split_redact_line. unfold seg_id.
  destruct (split_cons "|" line) as (seg & fields & ->).
  cbn [hd tl]. rewrite !index_cons_0, !bind_ret_l. rewrite !if_same.
  change (Z.to_nat 1) with 1%nat. cbn [skipn].
  rewrite populated_redact. unfold list_len. cbn [List.length].
  now rewrite length_map.
Qed.

Lemma for_each_map {A B : Type} (f : A -> B) (xs : list A)
    (body : B -> IO unit) :
  for_each (map f xs) body = for_each xs (fun x => body (f x)).
Proof. induction xs as [|x r IH]; [reflexivity|]. simpl. now rewrite IH. Qed.

Lemma for_each_ext {A : Type} (xs : list A) (f g : A -> IO unit) :
  (forall x, f x = g x) -> for_each xs f = for_each xs g.
Proof.
  intros H. induction xs as [|x r IH]; [reflexivity|]. simpl.
  now rewrite H, IH.
Qed.

Lemma for_each_enumerate_map {A B : Type} (f : A -> B) (xs : list A)
    (start : Z) (body : Z * B -> IO unit) :
  for_each (enumerate start (map f xs)) body
  = for_each (enumerate start xs) (fun '(i, x) => body (i, f x)).
Proof.
  revert start. induction xs as [|x r IH]; intros start; [reflexivity|].
  simpl. now rewrite IH.
Qed.

Lemma show_structure_redact (messages : list (list string)) :
  show_structure (redact messages) = show_structure messages.
Proof.
  unfold show_structure, for_messages, redact.
  rewrite for_each_enumerate_map.
  replace (list_len (map (map redact_line) messages))
    with (list_len messages) by (unfold list_len; now rewrite length_map).
  apply for_each_ext. intros [i msg].
  rewrite for_each_map.
  rewrite (for_each_ext msg _ structure_line structure_line_redact).
  reflexivity.
Qed.

End Redaction.

(** C5, as the code has it.  The output of the Structure view is the same for
    two lists of messages that agree once the content of their fields is
    hidden, that is, once every character of a field other than the
    delimiters and white space is replaced by the same letter: the output
    shows the segment ids, the number and positions of the fields and the
    descriptors, and nothing else of the fields. *)
Theorem show_structure_hides_content (m1 m2 : list (list string)) :
  redact m1 = redact m2 -> show_structure m1 = show_structure m2.
Proof.
  intros H.
  rewrite <- (show_structure_redact m1), <- (show_structure_redact m2).
  now rewrite H.
Qed.

Lemma show_structure_hides_content_witness :
  show_structure [["PID|1||12345^^^MR||Doe^John"]]
  = show_structure [["PID|7||98765^^^XY||Roe^Jane"]].
Proof.
  apply (show_structure_hides_content
           [["PID|1||12345^^^MR||Doe^John"]]
           [["PID|7||98765^^^XY||Roe^Jane"]]).
  vm_compute. reflexivity.
Defined.

(** C5 as it is stated fails where a field value happens to occur in the
    fixed text of the output: the value [M] of the eighth field of PID is a
    substring of the segment id [MSH]. *)
Lemma show_structure_shows_a_field_value :
  let messages :=
    extract_messages ("MSH|^~\&|LAB" ++ nl ++ "PID|1|||||||M") in
  In "M" (field_values messages)
  /\ stdout (show_structure messages)
     = "  MSH (2 fields) populated: 2(len=3)" ++ nl
       ++ "  PID (8 fields) populated: 1(len=1), 8(len=1)" ++ nl
  /\ is_infix "M" (stdout (show_structure messages)) = true.
Proof.
  vm_compute. split; [|split; reflexivity].
  do 9 right. left. reflexivity.
Qed.

(** ** Upper and lower case in the selectors *)

Section CaseOfSelectors.
















Lemma for_each_ext_in {A : Type} (xs : list A) (f g : A -> IO unit) :
  (forall x, In x xs -> f x = g x) -> for_each xs f = for_each xs g.
Proof.
  induction xs as [|x r IH]; intros H; [reflexivity|]. simpl.
  rewrite (H x) by now left. rewrite IH; [reflexivity|].
  intros y Hy. apply H. now right.
Qed.

Lemma in_enumerate {A : Type} (xs : list A) (start i : Z) (x : A) :
  In (i, x) (enumerate start xs) -> In x xs.
Proof.
  revert start. induction xs as [|y r IH]; intros start H; [destruct H|].
  destruct H as [H|H]; [left; congruence | right; eauto].
Qed.

Lemma for_messages_ext_in (messages : list (list string))
    (header : Z -> string) (trailer : bool)
    (f g : string -> IO unit) :
  (forall msg line, In msg messages -> In line msg -> f line = g line) ->
  for_messages messages header trailer f
  = for_messages messages header trailer g.
Proof.
  intros H. unfold for_messages. apply for_each_ext_in.
  intros [i msg] Hin. apply in_enumerate in Hin.
  rewrite (for_each_ext_in msg f g); [reflexivity|].
  intros line Hline. now apply (H msg).
Qed.





End CaseOfSelectors.

(** ** Further properties of the extractor *)

Lemma count_le_lines (lines : list string) :
  count_headers lines + leading_orphans lines <= list_len lines.
Proof.
  unfold count_headers, list_len. destruct lines as [|l r]; [simpl; lia|].
  cbn [filter leading_orphans]. pose proof (filter_length_le is_header r).
  destruct (is_header l); cbn [List.length]; lia.
Qed.

Lemma is_nil_group_messages (lines : list string) :
  is_nil (group_messages lines) = is_nil lines.
Proof.
  destruct (group_messages_shape lines) as (Hn & Hc & _ & _).
  cbv zeta in Hn, Hc. destruct (group_messages lines) as [|m ms].
  - simpl in Hc. now subst lines.
  - cbn [forallb] in Hn. destruct m as [|l m]; [discriminate Hn|].
    simpl in Hc. now subst lines.
Qed.

(** X1.  No message is extracted exactly when no line is kept, there are
    never more messages than kept lines, and a file none of whose lines is
    kept makes [main] print one line and leave with status 1, whatever the
    flags. *)
Theorem no_messages_without_lines
    (fs : string -> read_result) (args : Args) (content : string) :
  fs (file args) = ReadOk content ->
  is_nil (extract_messages content) = is_nil (segment_lines content)
  /\ list_len (extract_messages content) <= list_len (segment_lines content)
  /\ (segment_lines content = [] ->
      main fs args
      = (["No HL7v2 messages found in file"], inl (SystemExit 1))).
Proof.
  intros Hfs. unfold extract_messages. split; [|split].
  - apply is_nil_group_messages.
  - destruct (group_messages_shape (segment_lines content))
      as (_ & _ & _ & Hcnt).
    cbv zeta in Hcnt. rewrite Hcnt. apply count_le_lines.
  - intros E. unfold main. rewrite Hfs. unfold extract_messages.
    rewrite is_nil_group_messages, E. reflexivity.
Qed.

Lemma no_messages_without_lines_witness :
  main (one_file ("hello" ++ nl ++ "ZZZ|1")) (args_of true None (Some "x") None)
  = (["No HL7v2 messages found in file"], inl (SystemExit 1)).
Proof.
  destruct (no_messages_without_lines
              (one_file ("hello" ++ nl ++ "ZZZ|1"))
              (args_of true None (Some "x") None)
              ("hello" ++ nl ++ "ZZZ|1") eq_refl) as (_ & _ & H).
  apply H. vm_compute. reflexivity.
Defined.

Lemma header_only_first_snoc (msg : list string) (line : string) :
  header_only_first msg = true -> is_header line = false ->
  header_only_first (msg ++ [line]) = true.
Proof.
  unfold header_only_first. intros Hm Hl. destruct msg as [|l0 m]; [reflexivity|].
  cbn [app tl] in *. rewrite forallb_app, Hm. simpl. now rewrite Hl.
Qed.

Lemma group_fold_header_only_first (lines : list string) :
  forall messages current,
    forallb header_only_first messages = true ->
    header_only_first current = true ->
    let (messages', current') := fold_left group_step lines (messages, current) in
    forallb header_only_first messages' = true
    /\ header_only_first current' = true.
Proof.
  induction lines as [|line lines IH]; intros messages current Hm Hc.
  - simpl. now split.
  - cbn [fold_left]. unfold group_step at 2.
    destruct (startswith "MSH|" line) eqn:E.
    + apply IH; [|reflexivity]. unfold close_current.
      destruct (is_nil current); [exact Hm|].
      rewrite forallb_app, Hm. simpl. now rewrite Hc.
    + apply IH; [exact Hm|]. now apply header_only_first_snoc.
Qed.

(** X2.  Each header line opens a message: in every extracted message no
    line after the first starts with [MSH|]. *)
Theorem header_lines_open_messages (content : string) :
  forallb header_only_first (extract_messages content) = true.
Proof.
  unfold extract_messages, group_messages.
  pose proof (group_fold_header_only_first (segment_lines content) [] []
                eq_refl eq_refl) as H.
  destruct (fold_left group_step (segment_lines content) ([], []))
    as [messages current].
  destruct H as [Hm Hc]. unfold close_current.
  destruct (is_nil current); [exact Hm|].
  rewrite forallb_app, Hm. simpl. now rewrite Hc.
Qed.

(** *** The kept lines are in normal form *)

Lemma starts_nonspace_lstrip (s : string) : starts_nonspace (lstrip s) = true.
Proof.
  induction s as [|c r IH]; [reflexivity|]. cbn [lstrip].
  destruct (is_space c) eqn:E; [exact IH|]. cbn [starts_nonspace].
  now rewrite E.
Qed.

Lemma lstrip_starts_nonspace (s : string) :
  starts_nonspace s = true -> lstrip s = s.
Proof.
  destruct s as [|c r]; [reflexivity|]. cbn [starts_nonspace lstrip].
  intros H. apply negb_true_iff in H. now rewrite H.
Qed.

Lemma rstrip_cons (c : ascii) (r : string) :
  rstrip (String c r)
  = if truthy (rstrip r) then String c (rstrip r)
    else if is_space c then EmptyString else String c EmptyString.
Proof. cbn [rstrip]. destruct (rstrip r); reflexivity. Qed.

Lemma rstrip_idempotent (s : string) : rstrip (rstrip s) = rstrip s.
Proof.
  induction s as [|c r IH]; [reflexivity|]. rewrite rstrip_cons.
  destruct (truthy (rstrip r)) eqn:E.
  - rewrite rstrip_cons, IH, E. reflexivity.
  - destruct (is_space c) eqn:Ec; [reflexivity|].
    rewrite rstrip_cons. cbn [rstrip truthy]. now rewrite Ec.
Qed.

Lemma starts_nonspace_rstrip (s : string) :
  starts_nonspace s = true -> starts_nonspace (rstrip s) = true.
Proof.
  destruct s as [|c r]; [reflexivity|]. cbn [starts_nonspace]. intros H.
  rewrite rstrip_cons. apply negb_true_iff in H.
  rewrite H. destruct (truthy (rstrip r)); cbn [starts_nonspace];
    rewrite H; reflexivity.
Qed.

Lemma strip_idempotent (s : string) : strip (strip s) = strip s.
Proof.
  unfold strip. rewrite (lstrip_starts_nonspace (rstrip (lstrip s))).
  - apply rstrip_idempotent.
  - apply starts_nonspace_rstrip, starts_nonspace_lstrip.
Qed.

Lemma starts_nonspace_strip (s : string) : starts_nonspace (strip s) = true.
Proof. apply starts_nonspace_rstrip, starts_nonspace_lstrip. Qed.

Lemma retained_in_names (line : string) :
  retained line = true -> in_names (strip (seg_id line)) = true.
Proof.
  unfold retained. fold (seg_id line). intros H.
  apply orb_prop in H as [H|H]; [exact H|].
  apply andb_prop in H as [H _]. apply String.eqb_eq in H. now rewrite H.
Qed.

Lemma segment_lines_normal (content line : string) :
  In line (segment_lines content) ->
  exists raw, In raw (split nl_char (strip_rtf content))
              /\ line = strip raw /\ truthy line = true
              /\ retained line = true.
Proof.
  unfold segment_lines. intros H. apply in_flat_map in H as (raw & Hraw & H).
  exists raw. destruct (truthy (strip raw)) eqn:Et; [|destruct H].
  cbn [negb] in H. destruct (retained (strip raw)) eqn:Er; [|destruct H].
  destruct H as [<-|[]]. auto.
Qed.

Lemma seg_id_starts_nonspace (line : string) :
  starts_nonspace line = true -> starts_nonspace (seg_id line) = true.
Proof.
  unfold seg_id. destruct line as [|c r]; [reflexivity|]. cbn [split].
  destruct (Ascii.eqb c "|"); [reflexivity|].
  destruct (split_cons "|" r) as (p & ps & ->). exact (fun H => H).
Qed.

(** X3.  Every line of every extracted message is non-empty and has no
    white space at either end, and its segment id is one of [SEGMENT_NAMES],
    possibly followed by white space, never preceded by any. *)
Theorem extracted_lines_are_normal (content : string) :
  Forall
    (Forall (fun line =>
               strip line = line /\ truthy line = true
               /\ in_names (rstrip (seg_id line)) = true
               /\ lstrip (seg_id line) = seg_id line))
    (extract_messages content).
Proof.
  apply Forall_forall. intros msg Hmsg. apply Forall_forall. intros line Hline.
  assert (In line (segment_lines content)) as Hin.
  { destruct (group_messages_shape (segment_lines content)) as (_ & <- & _).
    apply in_concat. now exists msg. }
  apply segment_lines_normal in Hin as (raw & _ & -> & Ht & Hr).
  assert (lstrip (seg_id (strip raw)) = seg_id (strip raw)) as Hl.
  { apply lstrip_starts_nonspace, seg_id_starts_nonspace,
      starts_nonspace_strip. }
  repeat split; auto using strip_idempotent.
  apply retained_in_names in Hr. unfold strip in Hr at 1.
  now rewrite Hl in Hr.
Qed.

(** *** Extracting again *)

Lemma split_no_sep (sep : ascii) (p : string) :
  contains sep p = false -> split sep p = [p].
Proof.
  induction p as [|c r IH]; [reflexivity|]. cbn [contains split].
  intros H. apply orb_false_elim in H as [Hc Hr].
  rewrite Hc, (IH Hr). reflexivity.
Qed.

Lemma split_app_sep (sep : ascii) (p r : string) :
  contains sep p = false ->
  split sep (p ++ String sep r) = p :: split sep r.
Proof.
  induction p as [|c p IH]; cbn [contains append split]; intros H.
  - now rewrite Ascii.eqb_refl.
  - apply orb_false_elim in H as [Hc Hp]. rewrite Hc, (IH Hp). reflexivity.
Qed.

Lemma split_join (sep : ascii) (ps : list string) :
  ps <> [] -> Forall (fun p => contains sep p = false) ps ->
  split sep (join (String sep "") ps) = ps.
Proof.
  induction ps as [|p ps IH]; intros Hne Hall; [now elim Hne|].
  inversion Hall as [|? ? Hp Hps]; subst. destruct ps as [|q ps].
  - simpl. now apply split_no_sep.
  - rewrite join_cons_cons.
    change (String sep "" ++ join (String sep "") (q :: ps))
      with (String sep (join (String sep "") (q :: ps))).
    rewrite (split_app_sep _ _ _ Hp), IH; [reflexivity|discriminate|exact Hps].
Qed.

Lemma in_split_no_sep (sep : ascii) (s p : string) :
  In p (split sep s) -> contains sep p = false.
Proof.
  revert p. induction s as [|c r IH]; intros p H.
  - destruct H as [<-|[]]. reflexivity.
  - cbn [split] in H. destruct (Ascii.eqb c sep) eqn:E.
    + destruct H as [<-|H]; [reflexivity|now apply IH].
    + destruct (split_cons sep r) as (q & qs & Eq). rewrite Eq in *.
      destruct H as [<-|H].
      * cbn [contains]. rewrite E. apply IH. now left.
      * apply IH. now right.
Qed.

Lemma contains_lstrip (c : ascii) (s : string) :
  contains c s = false -> contains c (lstrip s) = false.
Proof.
  induction s as [|d r IH]; [reflexivity|]. cbn [contains lstrip]. intros H.
  destruct (is_space d); [|exact H].
  apply orb_false_elim in H as [_ H]. now apply IH.
Qed.

Lemma contains_rstrip (c : ascii) (s : string) :
  contains c s = false -> contains c (rstrip s) = false.
Proof.
  induction s as [|d r IH]; [reflexivity|]. cbn [contains]. intros H.
  apply orb_false_elim in H as [Hd Hr]. rewrite rstrip_cons.
  destruct (truthy (rstrip r)).
  - cbn [contains]. now rewrite Hd, IH.
  - destruct (is_space d); [reflexivity|]. cbn [contains]. now rewrite Hd.
Qed.

Lemma contains_strip (c : ascii) (s : string) :
  contains c s = false -> contains c (strip s) = false.
Proof. intros H. now apply contains_rstrip, contains_lstrip. Qed.

Lemma retained_first_char (line : string) :
  starts_nonspace line = true -> retained line = true ->
  exists c r, line = String c r /\ Ascii.eqb "{" c = false.
Proof.
  intros Hs Hr. destruct line as [|c r]; [discriminate Hr|].
  exists c, r. split; [reflexivity|].
  destruct (Ascii.eqb_spec "{" c) as [<-|]; [|reflexivity].
  exfalso. unfold retained in Hr. cbn [split] in Hr.
  change (Ascii.eqb "{" "|") with false in Hr.
  destruct (split_cons "|" r) as (p & ps & E). rewrite E in Hr.
  cbn [hd] in Hr. unfold strip in Hr. cbn [lstrip] in Hr.
  change (is_space "{") with false in Hr. cbv iota in Hr.
  rewrite rstrip_cons in Hr. change (is_space "{") with false in Hr.
  destruct (truthy (rstrip p)); discriminate Hr.
Qed.

Lemma segment_lines_of_normal (lines : list string) :
  Forall (fun line => strip line = line /\ truthy line = true
                      /\ retained line = true
                      /\ contains nl_char line = false) lines ->
  segment_lines (join nl lines) = lines.
Proof.
  intros Hall. destruct lines as [|l r]; [reflexivity|].
  unfold segment_lines.
  assert (strip_rtf (join nl (l :: r)) = join nl (l :: r)) as ->.
  { inversion Hall as [|? ? (Hs & _ & Hr & _) _]; subst.
    destruct (retained_first_char l) as (c & l' & -> & Hc); auto.
    - rewrite <- Hs. apply starts_nonspace_strip.
    - unfold strip_rtf. destruct r; cbn [join String.concat append startswith];
        now rewrite Hc. }
  unfold nl. rewrite split_join; [|discriminate|].
  - induction Hall as [|x xs (Hs & Ht & Hr & _) _ IH]; [reflexivity|].
    cbn [flat_map]. rewrite Hs, Ht, Hr, IH. reflexivity.
  - eapply Forall_impl; [|exact Hall]. now intros x (_ & _ & _ & H).
Qed.

Lemma segment_lines_all_normal (content : string) :
  Forall (fun line => strip line = line /\ truthy line = true
                      /\ retained line = true
                      /\ contains nl_char line = false)
    (segment_lines content).
Proof.
  apply Forall_forall. intros line H.
  apply segment_lines_normal in H as (raw & Hraw & -> & Ht & Hr).
  repeat split; auto using strip_idempotent.
  apply contains_strip. now apply (in_split_no_sep _ (strip_rtf content)).
Qed.

(** X4.  Writing the lines of the extracted messages out, one per line, and
    extracting again gives the same messages. *)
Theorem extract_messages_again (content : string) :
  extract_messages (join nl (List.concat (extract_messages content)))
  = extract_messages content.
Proof.
  destruct (group_messages_shape (segment_lines content)) as (_ & Hc & _).
  cbv zeta in Hc. unfold extract_messages at 2. rewrite Hc.
  unfold extract_messages.
  now rewrite (segment_lines_of_normal _ (segment_lines_all_normal content)).
Qed.

(** ** Files put one after the other *)

Lemma split_app (sep : ascii) (a b : string) :
  split sep (a ++ String sep b) = (split sep a ++ split sep b)%list.
Proof.
  induction a as [|c a IH]; cbn [append split].
  - now rewrite Ascii.eqb_refl.
  - rewrite IH. destruct (Ascii.eqb c sep); [reflexivity|].
    destruct (split_cons sep a) as (p & ps & ->). reflexivity.
Qed.

Lemma startswith_app (p a b : string) :
  contains nl_char p = false -> startswith p a = false ->
  startswith p (a ++ String nl_char b) = false.
Proof.
  revert a. induction p as [|c p IH]; intros a Hp Ha; [discriminate Ha|].
  cbn [contains] in Hp. apply orb_false_elim in Hp as [Hc Hp].
  destruct a as [|d a]; cbn [append startswith] in *.
  - now rewrite Hc.
  - apply andb_false_iff in Ha as [Ha|Ha]; [now rewrite Ha|].
    rewrite (IH a Hp Ha). apply andb_false_r.
Qed.

Lemma segment_lines_app (a b : string) :
  startswith "{\rtf" a = false -> startswith "{\rtf" b = false ->
  segment_lines (a ++ nl ++ b) = (segment_lines a ++ segment_lines b)%list.
Proof.
  intros Ha Hb. unfold segment_lines, strip_rtf.
  change (a ++ nl ++ b) with (a ++ String nl_char b).
  rewrite (startswith_app "{\rtf" a b eq_refl Ha), Ha, Hb.
  now rewrite split_app, flat_map_app.
Qed.

Lemma group_fold_prepend (lines : list string) :
  forall (before messages : list (list string)) (current : list string),
    fold_left group_step lines ((before ++ messages)%list, current)
    = let (messages', current') :=
        fold_left group_step lines (messages, current) in
      ((before ++ messages')%list, current').
Proof.
  induction lines as [|line lines IH]; intros before messages current.
  - reflexivity.
  - cbn [fold_left]. unfold group_step at 2 4.
    destruct (startswith "MSH|" line); [|apply IH].
    unfold close_current. destruct (is_nil current); [apply IH|].
    rewrite <- app_assoc. apply IH.
Qed.

Lemma group_messages_app (first second : list string) :
  leading_orphans second = 0 ->
  group_messages (first ++ second)
  = (group_messages first ++ group_messages second)%list.
Proof.
  intros Hsecond. destruct second as [|line second].
  - now rewrite !app_nil_r.
  - cbn [leading_orphans] in Hsecond.
    destruct (is_header line) eqn:Hline; [|discriminate Hsecond].
    unfold is_header in Hline. unfold group_messages.
    rewrite fold_left_app. cbn [fold_left].
    destruct (fold_left group_step first ([], [])) as [messages current].
    unfold group_step at 2 4. rewrite Hline.
    change (close_current [] []) with (@nil (list string)).
    generalize (close_current messages current) as before. intros before.
    rewrite <- (app_nil_r before) at 1. rewrite group_fold_prepend.
    destruct (fold_left group_step second ([], [line]))
      as [messages' current'].
    unfold close_current. destruct (is_nil current'); [reflexivity|].
    now rewrite app_assoc.
Qed.

(** X15.  Two contents without the rich-text marker, written one after
    the other on separate lines, hold the kept lines of both; and when the
    second has no kept line, or its first kept line starts with [MSH|], they
    hold the messages of the first followed by the messages of the
    second. *)
Theorem extract_messages_of_two_files (a b : string) :
  startswith "{\rtf" a = false -> startswith "{\rtf" b = false ->
  segment_lines (a ++ nl ++ b) = (segment_lines a ++ segment_lines b)%list
  /\ (leading_orphans (segment_lines b) = 0 ->
      extract_messages (a ++ nl ++ b)
      = (extract_messages a ++ extract_messages b)%list).
Proof.
  intros Ha Hb. split; [now apply segment_lines_app|]. intros Horphans.
  unfold extract_messages. rewrite (segment_lines_app a b Ha Hb).
  now apply group_messages_app.
Qed.

Lemma extract_messages_of_two_files_witness :
  extract_messages (two_messages ++ nl ++ header_only)
  = (extract_messages two_messages ++ extract_messages header_only)%list.
Proof.
  destruct (extract_messages_of_two_files two_messages header_only
              eq_refl eq_refl) as [_ H].
  apply H. vm_compute. reflexivity.
Defined.

(** ** The rich-text wrapper *)

Lemma subsequence_refl (s : string) : subsequence s s.
Proof. induction s; constructor; assumption. Qed.

Lemma sub_ctrl_subsequence (s : string) :
  forall st, subsequence (sub_ctrl st s) s.
Proof.
  induction s as [|c r IH]; intros st; [constructor|]. cbn [sub_ctrl].
  assert (subsequence
            (if (Ascii.eqb c "\" && starts_lower r)%bool
             then sub_ctrl Letters r else String c (sub_ctrl Text r))
            (String c r)) as Htext.
  { destruct (Ascii.eqb c "\" && starts_lower r)%bool; constructor; apply IH. }
  destruct st; [exact Htext| |].
  - destruct (is_lower c); [constructor; apply IH|].
    destruct (is_digit c); [constructor; apply IH|].
    destruct (is_space c); [constructor; apply IH|exact Htext].
  - destruct (is_digit c); [constructor; apply IH|].
    destruct (is_space c); [constructor; apply IH|exact Htext].
Qed.

Lemma sub_braces_subsequence (t s : string) :
  subsequence t s -> subsequence (sub_braces t) s.
Proof.
  induction 1 as [|c a b _ IH|c a b _ IH]; [constructor| |now constructor].
  cbn [sub_braces].
  destruct (Ascii.eqb c "{" || Ascii.eqb c "}")%bool; now constructor.
Qed.

Lemma sub_braces_no_brace (s : string) :
  contains "{" (sub_braces s) = false /\ contains "}" (sub_braces s) = false.
Proof.
  induction s as [|c r [IH1 IH2]]; [split; reflexivity|]. cbn [sub_braces].
  destruct (Ascii.eqb c "{") eqn:E1; [now split|].
  destruct (Ascii.eqb c "}") eqn:E2; [now split|].
  cbn [orb contains]. now rewrite E1, E2, IH1, IH2.
Qed.

(** X5.  Stripping the rich-text wrapper only deletes characters.  A
    content that starts with the marker comes out without any brace; any
    other content comes out unchanged. *)
Theorem strip_rtf_only_deletes (content : string) :
  subsequence (strip_rtf content) content
  /\ (if startswith "{\rtf" content
      then contains "{" (strip_rtf content) = false
           /\ contains "}" (strip_rtf content) = false
      else strip_rtf content = content).
Proof.
  unfold strip_rtf. destruct (startswith "{\rtf" content).
  - split; [|apply sub_braces_no_brace].
    apply sub_braces_subsequence, sub_ctrl_subsequence.
  - split; [apply subsequence_refl|reflexivity].
Qed.

(** ** Further properties of the Field and Verify views *)

Lemma field_line_match (sel line : string) (n : Z) :
  codepoints (seg_id line) = upper sel ->
  field_line (upper sel) n line
  = (if list_len (split "|" line) <=? n then
       print ("  " ++ seg_id line ++ "-" ++ str_of_Z n
              ++ ": (not present, only "
              ++ str_of_Z (list_len (split "|" line) - 1) ++ " fields)")
     else
       bind (index (split "|" line) n)
         (fun val =>
            if negb (truthy (strip val)) then
              print ("  " ++ seg_id line ++ "-" ++ str_of_Z n ++ ": (empty)")
            else if contains "^" val then
              print ("  " ++ seg_id line ++ "-" ++ str_of_Z n ++ ": " ++ val) ;;
              for_each (enumerate 0 (split "^" val))
                (fun '(k, c) =>
                   print ("    ." ++ str_of_Z (k + 1) ++ ": "
                          ++ (if truthy c then c else "(empty)")))
            else if contains "~" val then
              print ("  " ++ seg_id line ++ "-" ++ str_of_Z n ++ ": ("
                     ++ str_of_Z (list_len (split "~" val)) ++ " repeats)") ;;
              for_each (enumerate 0 (split "~" val))
                (fun '(r_idx, repeat) =>
                   print ("    [" ++ str_of_Z (r_idx + 1) ++ "]: " ++ repeat))
            else
              print ("  " ++ seg_id line ++ "-" ++ str_of_Z n ++ ": " ++ val))).
Proof.
  intros Hseg. unfold field_line.
  rewrite index_split_0, bind_ret_l. fold (seg_id line).
  unfold seg_differs. rewrite Hseg, cp_eqb_refl. reflexivity.
Qed.

(** X6.  On a line whose segment id is the selector's, upper-cased, the
    Field view reports a field number above the number of pipes of the line
    as not present, and names that number of pipes as the field count. *)
Theorem field_reports_absent (field_spec sel line : string) (n : Z) :
  parse_field_spec field_spec = Some (sel, n) ->
  codepoints (seg_id line) = upper sel ->
  count_char "|" line < n ->
  show_field [[line]] field_spec
  = (["  " ++ seg_id line ++ "-" ++ str_of_Z n ++ ": (not present, only "
      ++ str_of_Z (count_char "|" line) ++ " fields)"], inr tt).
Proof.
  intros Hparse Hseg Hn. unfold show_field.
  rewrite Hparse, for_messages_single, (field_line_match _ _ _ Hseg).
  rewrite list_len_split.
  assert ((count_char "|" line + 1 <=? n) = true) as -> by lia.
  replace (count_char "|" line + 1 - 1) with (count_char "|" line) by lia.
  reflexivity.
Qed.

Lemma field_reports_absent_witness :
  show_field [["PID|1||12345^^^MR||Doe^John"]] "pid.6"
  = (["  PID-6: (not present, only 5 fields)"], inr tt).
Proof.
  apply (field_reports_absent "pid.6" "pid" "PID|1||12345^^^MR||Doe^John" 6).
  - vm_compute. reflexivity.
  - vm_compute. reflexivity.
  - vm_compute. reflexivity.
Defined.

Lemma in_range_from_iff (lo : Z) (n : nat) (j : Z) :
  In j (range_from lo n) <-> lo <= j < lo + Z.of_nat n.
Proof.
  revert lo. induction n as [|n IH]; intros lo; cbn [range_from In].
  - lia.
  - rewrite IH. lia.
Qed.

Lemma in_range_iff (lo hi j : Z) : In j (range lo hi) <-> lo <= j < hi.
Proof. unfold range. rewrite in_range_from_iff. lia. Qed.

Lemma index_nth (xs : list string) (j : Z) :
  0 <= j < list_len xs ->
  index xs j = ret (nth (Z.to_nat j) xs EmptyString).
Proof.
  unfold list_len, index, getitem. intros Hj.
  assert ((0 <=? j) = true) as -> by lia.
  assert ((j <? Z.of_nat (List.length xs)) = true) as -> by lia.
  cbn [andb]. rewrite (nth_error_nth' xs EmptyString); [reflexivity|lia].
Qed.

Lemma collect_ret {A B : Type} (xs : list A) (f : A -> IO B) (g : A -> B) :
  (forall x, In x xs -> f x = ret (g x)) -> collect xs f = ret (map g xs).
Proof.
  induction xs as [|x r IH]; intros H; [reflexivity|]. cbn [collect map].
  rewrite (H x) by now left. rewrite bind_ret_l, IH, bind_ret_l; [reflexivity|].
  intros y Hy. apply H. now right.
Qed.

(** X7.  On a line whose segment id is the selector's, upper-cased, and for
    a field number from 0 to the number of pipes, the Verify view prints the
    field count, the part at that number, and a context window that holds
    exactly the fields at distance at most 2 from the number, each with its
    content or "(empty)", the requested one marked.  For number 0 the part
    is the segment id and no line of the window is marked. *)
Theorem verify_shows_window (field_spec sel line : string) (n : Z) :
  parse_field_spec field_spec = Some (sel, n) ->
  codepoints (seg_id line) = upper sel ->
  0 <= n <= count_char "|" line ->
  let parts := split "|" line in
  let total := count_char "|" line in
  let window := range (Z.max 1 (n - 2)) (Z.min (total + 1) (n + 3)) in
  verify_field [[line]] field_spec
  = (["  " ++ seg_id line ++ " (" ++ str_of_Z total
      ++ " fields total), field " ++ str_of_Z n ++ " = " ++ shown_part parts n;
      "  Context:";
      join nl
        (map (fun j => "    Field " ++ str_of_Z j ++ ": " ++ shown_part parts j
                       ++ (if j =? n then " <<< " else ""))
             window)], inr tt)
  /\ forall j, In j window <-> 1 <= j <= total /\ n - 2 <= j <= n + 2.
Proof.
  intros Hparse Hseg Hn parts total window. split.
  - assert (list_len parts = total + 1) as Hlen
      by (unfold parts; now rewrite list_len_split).
    unfold verify_field. rewrite Hparse, for_messages_single.
    unfold verify_line. rewrite index_split_0, bind_ret_l. fold (seg_id line).
    unfold seg_differs. rewrite Hseg, cp_eqb_refl. cbn [negb].
    change (split "|" line) with parts. rewrite Hlen.
    replace (total + 1 - 1) with total by lia.
    assert ((total <? n) = false) as -> by lia.
    assert ((n <? total + 1) = true) as -> by lia.
    rewrite (index_nth parts n) by lia.
    rewrite bind_ret_l. fold window.
    rewrite (collect_ret window _
               (fun j => "    Field " ++ str_of_Z j ++ ": " ++ shown_part parts j
                         ++ (if j =? n then " <<< " else ""))).
    + rewrite bind_ret_l. reflexivity.
    + intros j Hj. apply in_range_iff in Hj. unfold context_part.
      rewrite Hlen. assert ((j <? total + 1) = true) as -> by lia.
      rewrite (index_nth parts j) by lia. rewrite bind_ret_l. reflexivity.
  - intros j. unfold window. rewrite in_range_iff. lia.
Qed.

Lemma verify_shows_window_witness :
  verify_field [["PID|1||12345^^^MR||Doe^John"]] "PID.0"
  = (["  PID (5 fields total), field 0 = PID"; "  Context:";
      "    Field 1: 1" ++ nl ++ "    Field 2: (empty)"], inr tt).
Proof.
  apply (verify_shows_window "PID.0" "PID" "PID|1||12345^^^MR||Doe^John" 0).
  - vm_compute. reflexivity.
  - vm_compute. reflexivity.
  - vm_compute. split; discriminate.
Defined.

(** X16.  On a line whose segment id is the selector's, upper-cased, the
    Field view reports a field whose number is at most the number of pipes
    and whose content is empty or white space as "(empty)", which is not
    what it prints for a field that is not there. *)
Theorem field_reports_empty (field_spec sel line : string) (n : Z) :
  parse_field_spec field_spec = Some (sel, n) ->
  codepoints (seg_id line) = upper sel ->
  0 <= n <= count_char "|" line ->
  has_nonspace (nth (Z.to_nat n) (split "|" line) EmptyString) = false ->
  show_field [[line]] field_spec
  = (["  " ++ seg_id line ++ "-" ++ str_of_Z n ++ ": (empty)"], inr tt).
Proof.
  intros Hparse Hseg Hn Hblank. unfold show_field.
  rewrite Hparse, for_messages_single, (field_line_match _ _ _ Hseg).
  rewrite list_len_split.
  assert ((count_char "|" line + 1 <=? n) = false) as -> by lia.
  rewrite index_nth by (rewrite list_len_split; lia).
  rewrite bind_ret_l, truthy_strip, Hblank. reflexivity.
Qed.

Lemma field_reports_empty_witness :
  show_field [["PID|1|  |3"]] "PID.2" = (["  PID-2: (empty)"], inr tt).
Proof.
  apply (field_reports_empty "PID.2" "PID" "PID|1|  |3" 2).
  - vm_compute. reflexivity.
  - vm_compute. reflexivity.
  - vm_compute. split; discriminate.
  - vm_compute. reflexivity.
Defined.

(** *** Where the views raise *)

Lemma snd_bind {A B : Type} (m : IO A) (k : A -> IO B) :
  snd (bind m k)
  = match snd m with
    | inl e => inl e
    | inr a => snd (k a)
    end.
Proof.
  destruct m as [out [e|a]]; [reflexivity|]. unfold bind. cbn [snd].
  destruct (k a). reflexivity.
Qed.

Lemma snd_for_each {A : Type} (xs : list A) (body : A -> IO unit)
    (bad : A -> bool) (e : exn) :
  (forall x, In x xs -> snd (body x) = if bad x then inl e else inr tt) ->
  snd (for_each xs body) = if existsb bad xs then inl e else inr tt.
Proof.
  induction xs as [|x r IH]; intros H; [reflexivity|].
  cbn [for_each existsb]. rewrite snd_bind, (H x) by now left.
  destruct (bad x); [reflexivity|]. apply IH. intros y Hy. apply H. now right.
Qed.

Lemma existsb_enumerate {A : Type} (bad : A -> bool) (xs : list A) (start : Z) :
  existsb (fun '(_, x) => bad x) (enumerate start xs) = existsb bad xs.
Proof.
  revert start. induction xs as [|x r IH]; intros start; [reflexivity|].
  cbn [enumerate existsb]. now rewrite IH.
Qed.

Lemma snd_for_messages (messages : list (list string)) (header : Z -> string)
    (trailer : bool) (body : string -> IO unit) (bad : string -> bool)
    (e : exn) :
  (forall line, snd (body line) = if bad line then inl e else inr tt) ->
  snd (for_messages messages header trailer body)
  = if existsb (existsb bad) messages then inl e else inr tt.
Proof.
  intros H. unfold for_messages.
  rewrite <- (existsb_enumerate (existsb bad) messages 0).
  apply snd_for_each. intros [i msg] _.
  rewrite snd_bind, (returns_unit _ (returns_when _ _ (returns_print _))).
  rewrite snd_bind, (snd_for_each msg body bad e) by (intros; apply H).
  destruct (existsb bad msg); [reflexivity|].
  apply returns_unit, returns_when, returns_print.
Qed.

Lemma index_too_low_raises {A : Type} (xs : list A) (i : Z) :
  i < - list_len xs -> index xs i = raise IndexError.
Proof.
  unfold list_len, index, getitem. intros Hi.
  assert ((0 <=? i) = false) as -> by lia. cbn [andb].
  assert ((- Z.of_nat (List.length xs) <=? i) = false) as -> by lia.
  reflexivity.
Qed.

Lemma returns_index_from_end {A : Type} (xs : list A) (i : Z) :
  - list_len xs <= i < list_len xs -> returns (index xs i).
Proof.
  intros Hi. destruct (Z_lt_ge_dec i 0) as [Hneg|Hpos];
    [|apply returns_index; lia].
  unfold list_len, index, getitem in *.
  assert ((0 <=? i) = false) as -> by lia. cbn [andb].
  assert ((- Z.of_nat (List.length xs) <=? i) = true) as -> by lia.
  assert ((i <? 0) = true) as -> by lia. cbn [andb].
  destruct (nth_error xs (Z.to_nat (Z.of_nat (List.length xs) + i))) eqn:E.
  - apply returns_ret.
  - apply nth_error_None in E. lia.
Qed.

Lemma snd_field_line (seg_type : list N) (n : Z) (line : string) :
  snd (field_line seg_type n line)
  = if index_too_low seg_type n line then inl IndexError else inr tt.
Proof.
  unfold field_line, index_too_low.
  rewrite index_split_0, bind_ret_l. fold (seg_id line).
  destruct (seg_differs (seg_id line) seg_type); [reflexivity|]. cbn [negb andb].
  pose proof (list_len_split "|" line) as Hlen.
  pose proof (count_char_nonneg "|" line) as Hpos.
  destruct (list_len (split "|" line) <=? n) eqn:E.
  - assert ((n <? - list_len (split "|" line)) = false) as -> by lia.
    reflexivity.
  - destruct (n <? - list_len (split "|" line)) eqn:E'.
    + rewrite index_too_low_raises by lia. reflexivity.
    + apply returns_unit, returns_bind; [apply returns_index_from_end; lia|].
      intros val.
      destruct (negb (truthy (strip val))); [apply returns_print|].
      destruct (contains "^" val).
      * apply returns_bind; [apply returns_print|]. intros _.
        apply returns_for_each. intros [k c] _. apply returns_print.
      * destruct (contains "~" val); [|apply returns_print].
        apply returns_bind; [apply returns_print|]. intros _.
        apply returns_for_each. intros [r_idx repeat] _. apply returns_print.
Qed.

Lemma snd_verify_line (seg_type : list N) (n : Z) (line : string) :
  snd (verify_line seg_type n line)
  = if index_too_low seg_type n line then inl IndexError else inr tt.
Proof.
  unfold verify_line, index_too_low.
  rewrite index_split_0, bind_ret_l. fold (seg_id line).
  destruct (seg_differs (seg_id line) seg_type); [reflexivity|]. cbn [negb andb].
  pose proof (list_len_split "|" line) as Hlen.
  pose proof (count_char_nonneg "|" line) as Hpos.
  destruct (list_len (split "|" line) - 1 <? n) eqn:E.
  - assert ((n <? - list_len (split "|" line)) = false) as -> by lia.
    reflexivity.
  - assert ((n <? list_len (split "|" line)) = true) as -> by lia.
    destruct (n <? - list_len (split "|" line)) eqn:E'.
    + rewrite index_too_low_raises by lia. reflexivity.
    + apply returns_unit, returns_bind; [apply returns_index_from_end; lia|].
      intros val. apply returns_bind.
      * apply returns_collect. intros j Hj. apply returns_context_part.
        apply in_range_bounds in Hj. lia.
      * intros ctx. repeat (apply returns_bind; [apply returns_print|intros _]).
        apply returns_print.
Qed.

Lemma snd_show_field (messages : list (list string)) (field_spec : string) :
  snd (show_field messages field_spec)
  = match parse_field_spec field_spec with
    | None => inl (SystemExit 1)
    | Some (sel, n) =>
        if existsb (existsb (index_too_low (upper sel) n)) messages
        then inl IndexError else inr tt
    end.
Proof.
  unfold show_field. destruct (parse_field_spec field_spec) as [[sel n]|];
    [|reflexivity].
  apply snd_for_messages. intros line. apply snd_field_line.
Qed.

Lemma snd_verify_field (messages : list (list string)) (field_spec : string) :
  snd (verify_field messages field_spec)
  = match parse_field_spec field_spec with
    | None => inl (SystemExit 1)
    | Some (sel, n) =>
        if existsb (existsb (index_too_low (upper sel) n)) messages
        then inl IndexError else inr tt
    end.
Proof.
  unfold verify_field. destruct (parse_field_spec field_spec) as [[sel n]|];
    [|reflexivity].
  apply snd_for_messages. intros line. apply snd_verify_line.
Qed.

(** X8.  With a selector that parses, the Field view and the Verify view
    raise [IndexError] exactly when some line whose segment id is the
    selector's has fewer than [- n] parts, [n] being the field number; in
    every other case they end normally.  So they never raise for [n >= -1],
    and a number from [-1] down to minus the number of parts reads the line
    from its end. *)
Theorem views_raise_on_low_index
    (messages : list (list string)) (field_spec sel : string) (n : Z) :
  parse_field_spec field_spec = Some (sel, n) ->
  let raises := existsb (existsb (index_too_low (upper sel) n)) messages in
  snd (show_field messages field_spec)
  = (if raises then inl IndexError else inr tt)
  /\ snd (verify_field messages field_spec)
     = (if raises then inl IndexError else inr tt)
  /\ (-1 <= n -> raises = false).
Proof.
  intros Hparse raises. rewrite snd_show_field, snd_verify_field, Hparse.
  repeat split. intros Hn. unfold raises.
  apply not_true_is_false. intros H.
  apply existsb_exists in H as (msg & _ & H).
  apply existsb_exists in H as (line & _ & H).
  unfold index_too_low in H. apply andb_prop in H as [_ H].
  pose proof (list_len_split "|" line). pose proof (count_char_nonneg "|" line).
  lia.
Qed.

Lemma views_raise_on_low_index_witness :
  snd (show_field [["PID|1|2"]; ["PID|1"]] "PID.-3") = inl IndexError
  /\ snd (verify_field [["PID|1|2"]; ["PID|1"]] "PID.-3") = inl IndexError.
Proof.
  destruct (views_raise_on_low_index [["PID|1|2"]; ["PID|1"]] "PID.-3" "PID"
              (-3) eq_refl) as (Hf & Hv & _).
  split; [exact Hf | exact Hv].
Defined.

(** X9.  How every run ends, negative field numbers included.  A file
    that cannot be opened or read ends the run with the uncaught exception;
    a file that is not found, a file without messages and a selector of the
    selected view that does not parse end it through [sys.exit(1)]; the
    Field and Verify views end it with [IndexError] exactly when some line
    whose segment id is the selector's has fewer than [- n] parts; every
    other run ends normally.  So the exit status is 0 for a normal end and 1
    otherwise. *)
Theorem main_ends (fs : string -> read_result) (args : Args) :
  snd (main fs args)
  = match fs (file args) with
    | ReadFails => inl ReadError
    | FileNotFoundError => inl (SystemExit 1)
    | ReadOk content =>
        if is_nil (extract_messages content) then inl (SystemExit 1)
        else
          match selected_spec args with
          | None => inr tt
          | Some field_spec =>
              match parse_field_spec field_spec with
              | None => inl (SystemExit 1)
              | Some (sel, n) =>
                  if existsb (existsb (index_too_low (upper sel) n))
                       (extract_messages content)
                  then inl IndexError else inr tt
              end
          end
    end
  /\ exit_status (main fs args)
     = match snd (main fs args) with inr _ => 0 | inl _ => 1 end.
Proof.
  assert (snd (main fs args)
          = match fs (file args) with
            | ReadFails => inl ReadError
            | FileNotFoundError => inl (SystemExit 1)
            | ReadOk content =>
                if is_nil (extract_messages content) then inl (SystemExit 1)
                else
                  match selected_spec args with
                  | None => inr tt
                  | Some field_spec =>
                      match parse_field_spec field_spec with
                      | None => inl (SystemExit 1)
                      | Some (sel, n) =>
                          if existsb (existsb (index_too_low (upper sel) n))
                               (extract_messages content)
                          then inl IndexError else inr tt
                      end
                  end
            end) as H.
  { unfold main, selected_spec.
    destruct (fs (file args)) as [content| |]; [|reflexivity..].
    destruct (is_nil (extract_messages content)); [reflexivity|].
    rewrite snd_print_bind.
    destruct (given (verify args)) as [v|]; [apply snd_verify_field|].
    destruct (given (field args)) as [f|]; [apply snd_show_field|].
    destruct (values args); apply returns_unit, returns_for_messages;
      intros msg line _ _;
      [apply returns_values_line | apply returns_structure_line]. }
  split; [exact H|]. unfold exit_status. rewrite H.
  destruct (fs (file args)) as [content| |]; [|reflexivity..].
  destruct (is_nil (extract_messages content)); [reflexivity|].
  destruct (selected_spec args) as [field_spec|]; [|reflexivity].
  destruct (parse_field_spec field_spec) as [[sel n]|]; [|reflexivity].
  destruct (existsb _ _); reflexivity.
Qed.

(** ** Further properties of the Structure and Values views *)

Lemma list_len_map {A B : Type} (g : A -> B) (xs : list A) :
  list_len (map g xs) = list_len xs.
Proof. unfold list_len. now rewrite length_map. Qed.

Lemma for_messages_map (g : string -> string) (messages : list (list string))
    (header : Z -> string) (trailer : bool) (body : string -> IO unit) :
  for_messages (map (map g) messages) header trailer body
  = for_messages messages header trailer (fun line => body (g line)).
Proof.
  unfold for_messages. rewrite for_each_enumerate_map, list_len_map.
  apply for_each_ext. intros [i msg]. now rewrite for_each_map.
Qed.

Lemma for_messages_ext (messages : list (list string)) (header : Z -> string)
    (trailer : bool) (f g : string -> IO unit) :
  (forall line, f line = g line) ->
  for_messages messages header trailer f
  = for_messages messages header trailer g.
Proof. intros H. apply for_messages_ext_in. intros; apply H. Qed.

Lemma split_replace_header_field_1 (v line : string) :
  contains "|" v = false ->
  (replace_header_field_1 v line = line)
  \/ exists f1 rest,
       split "|" line = "MSH" :: f1 :: rest
       /\ split "|" (replace_header_field_1 v line) = "MSH" :: v :: rest.
Proof.
  intros Hv. unfold replace_header_field_1.
  destruct (split "|" line) as [|seg [|f1 rest]] eqn:E; [now left..|].
  destruct (String.eqb_spec seg "MSH") as [->|]; [|now left].
  right. exists f1, rest. split; [reflexivity|].
  apply split_join; [discriminate|].
  constructor; [reflexivity|]. constructor; [exact Hv|].
  apply Forall_forall. intros p Hp.
  apply (in_split_no_sep "|" line). rewrite E. now right; right.
Qed.

Lemma structure_line_replace (v line : string) :
  contains "|" v = false ->
  structure_line (replace_header_field_1 v line) = structure_line line.
Proof.
  intros Hv.
  destruct (split_replace_header_field_1 v line Hv)
    as [->|(f1 & rest & E & E')]; [reflexivity|].
  unfold structure_line. rewrite E, E', !index_cons_0, !bind_ret_l.
  reflexivity.
Qed.

Lemma values_line_replace (segment_filter : option string) (v line : string) :
  contains "|" v = false ->
  values_line segment_filter (replace_header_field_1 v line)
  = values_line segment_filter line.
Proof.
  intros Hv.
  destruct (split_replace_header_field_1 v line Hv)
    as [->|(f1 & rest & E & E')]; [reflexivity|].
  unfold values_line. rewrite E, E', !index_cons_0, !bind_ret_l.
  reflexivity.
Qed.

(** X10.  The Structure view and the Values view show nothing of field 1
    of a header line: replacing it, in every line whose segment id is MSH, by
    any text without a pipe leaves the output of both views as it was. *)
Theorem header_field_1_is_not_shown
    (v : string) (messages : list (list string))
    (segment_filter : option string) :
  contains "|" v = false ->
  let messages' := map (map (replace_header_field_1 v)) messages in
  show_structure messages' = show_structure messages
  /\ show_values messages' segment_filter
     = show_values messages segment_filter.
Proof.
  intros Hv messages'. unfold messages', show_structure, show_values.
  rewrite !for_messages_map, !list_len_map. split.
  - apply for_messages_ext. intros line. now apply structure_line_replace.
  - apply for_messages_ext. intros line. now apply values_line_replace.
Qed.

Lemma header_field_1_is_not_shown_witness :
  show_values [["MSH|secret|LAB"; "PID|1"]] None
  = show_values [["MSH|^~\&|LAB"; "PID|1"]] None.
Proof.
  destruct (header_field_1_is_not_shown "secret"
              [["MSH|^~\&|LAB"; "PID|1"]] None eq_refl) as [_ H].
  exact H.
Defined.

Lemma for_each_filter {A : Type} (p : A -> bool) (xs : list A)
    (body : A -> IO unit) :
  for_each (filter p xs) body
  = for_each xs (fun x => if p x then body x else ret tt).
Proof.
  induction xs as [|x r IH]; [reflexivity|]. cbn [filter for_each].
  destruct (p x); cbn [for_each]; rewrite IH; [reflexivity|].
  now rewrite bind_ret_l.
Qed.

Lemma values_line_filter (f line : string) :
  truthy f = true ->
  values_line (Some f) line
  = if String.eqb (seg_id line) f then values_line None line else ret tt.
Proof.
  intros Hf. unfold values_line. rewrite index_split_0, !bind_ret_l.
  fold (seg_id line). cbn [filtered_out]. rewrite Hf. cbn [andb].
  destruct (String.eqb (seg_id line) f); reflexivity.
Qed.

(** X11.  With a non-empty [--segment] filter the Values view prints what
    it prints without a filter for the messages cut down to the lines whose
    segment id is the filter; the messages themselves all stay, so the frame
    around them is the same.  An empty filter is no filter. *)
Theorem show_values_filters_lines
    (messages : list (list string)) (f : string) :
  show_values messages (Some f)
  = if truthy f
    then show_values
           (map (filter (fun line => String.eqb (seg_id line) f)) messages)
           None
    else show_values messages None.
Proof.
  unfold show_values. destruct (truthy f) eqn:Hf.
  - unfold for_messages.
    rewrite for_each_enumerate_map, list_len_map.
    apply for_each_ext. intros [i msg]. rewrite for_each_filter.
    rewrite (for_each_ext msg _ _ (fun line => values_line_filter f line Hf)).
    reflexivity.
  - apply for_messages_ext. intros line. unfold values_line.
    destruct (index (split "|" line) 0) as [out [e|seg]]; [reflexivity|].
    cbn [bind filtered_out]. rewrite Hf. reflexivity.
Qed.

(** *** What is printed around the lines *)

Lemma fst_bind {A B : Type} (m : IO A) (k : A -> IO B) :
  fst (bind m k)
  = (fst m ++ match snd m with
              | inl _ => []
              | inr a => fst (k a)
              end)%list.
Proof.
  destruct m as [out [e|a]]; cbn [bind fst snd]; [now rewrite app_nil_r|].
  destruct (k a). reflexivity.
Qed.

Lemma for_each_silent {A : Type} (xs : list A) :
  for_each xs (fun _ => ret tt) = ret tt.
Proof.
  induction xs as [|x r IH]; [reflexivity|]. cbn [for_each].
  now rewrite bind_ret_l.
Qed.

Lemma for_each_prints {A : Type} (xs : list A) (text : A -> list string) :
  for_each xs (fun x => (text x, inr tt)) = (flat_map text xs, inr tt).
Proof.
  induction xs as [|x r IH]; [reflexivity|]. cbn [for_each flat_map].
  rewrite IH. reflexivity.
Qed.

Lemma flat_map_single {A B : Type} (g : A -> B) (xs : list A) :
  flat_map (fun x => [g x]) xs = map g xs.
Proof. induction xs as [|x r IH]; [reflexivity|]. simpl. now rewrite IH. Qed.

Lemma flat_map_none {A B : Type} (xs : list A) :
  flat_map (fun _ => @nil B) xs = [].
Proof. induction xs as [|x r IH]; [reflexivity|]. exact IH. Qed.

(** The headers of the Field and Verify views, alone. *)
Lemma for_messages_silent (messages : list (list string))
    (header : Z -> string) :
  for_messages messages header false (fun _ => ret tt)
  = (if 1 <? list_len messages
     then map (fun '(i, _) => header i) (enumerate 0 messages) else [],
     inr tt).
Proof.
  unfold for_messages. rewrite andb_false_r. cbn [when].
  destruct (1 <? list_len messages).
  - rewrite (for_each_ext _ _
               (fun im => ([let '(i, _) := im in header i], inr tt))).
    + rewrite for_each_prints.
      now rewrite (flat_map_single (fun im : Z * list string =>
                                      let '(i, _) := im in header i)).
    + intros [i msg]. now rewrite for_each_silent, bind_ret_l, bind_ret_r.
  - rewrite (for_each_ext _ _ (fun _ => ([], inr tt))).
    + now rewrite for_each_prints, flat_map_none.
    + intros [i msg]. now rewrite for_each_silent, !bind_ret_l.
Qed.

(** X12.  When no line has the segment id of the selector, upper-cased, the
    Field view and the Verify view print nothing about any line and end
    normally: their output is empty for one message, and the bare
    [--- Message i ---] headers for several. *)
Theorem views_are_silent_without_match
    (messages : list (list string)) (field_spec sel : string) (n : Z) :
  parse_field_spec field_spec = Some (sel, n) ->
  forallb (forallb (fun line => seg_differs (seg_id line) (upper sel)))
    messages = true ->
  let headers :=
    if 1 <? list_len messages
    then map (fun '(i, _) => "--- Message " ++ str_of_Z (i + 1) ++ " ---")
             (enumerate 0 messages)
    else [] in
  show_field messages field_spec = (headers, inr tt)
  /\ verify_field messages field_spec = (headers, inr tt).
Proof.
  intros Hparse Hall headers. subst headers.
  unfold show_field, verify_field. rewrite Hparse.
  rewrite <- (for_messages_silent messages
                (fun i => "--- Message " ++ str_of_Z (i + 1) ++ " ---")).
  rewrite forallb_forall in Hall.
  split; apply for_messages_ext_in; intros msg line Hmsg Hline;
    specialize (Hall msg Hmsg); rewrite forallb_forall in Hall;
    specialize (Hall line Hline).
  - unfold field_line. rewrite index_split_0, bind_ret_l.
    fold (seg_id line). now rewrite Hall.
  - unfold verify_line. rewrite index_split_0, bind_ret_l.
    fold (seg_id line). now rewrite Hall.
Qed.

Lemma views_are_silent_without_match_witness :
  show_field (extract_messages two_messages) "NK1.2"
  = (["--- Message 1 ---"; "--- Message 2 ---"], inr tt)
  /\ verify_field [["PID |1"]] "PID.1" = ([], inr tt).
Proof.
  split.
  - apply (views_are_silent_without_match (extract_messages two_messages)
             "NK1.2" "NK1" 2); vm_compute; reflexivity.
  - apply (views_are_silent_without_match [["PID |1"]] "PID.1" "PID" 1);
      vm_compute; reflexivity.
Defined.

Lemma structure_line_prints_one (line : string) :
  exists text, structure_line line = ([text], inr tt).
Proof.
  unfold structure_line. rewrite index_split_0, bind_ret_l.
  eexists. reflexivity.
Qed.

Lemma for_each_count {A : Type} (xs : list A) (body : A -> IO unit) :
  (forall x, exists text, body x = ([text], inr tt)) ->
  exists out, for_each xs body = (out, inr tt) /\ list_len out = list_len xs.
Proof.
  intros H. induction xs as [|x r (out & E & Hlen)].
  - exists []. now split.
  - destruct (H x) as [text Hx]. exists (text :: out). cbn [for_each].
    rewrite Hx, E. split; [reflexivity|].
    unfold list_len in *. cbn [List.length]. lia.
Qed.

Lemma list_len_app {A : Type} (xs ys : list A) :
  list_len (xs ++ ys) = list_len xs + list_len ys.
Proof. unfold list_len. rewrite length_app. lia. Qed.

Lemma list_len_nonneg {A : Type} (xs : list A) : 0 <= list_len xs.
Proof. unfold list_len. lia. Qed.

Lemma structure_count_from (header : Z -> string) (many : bool)
    (messages : list (list string)) (start : Z) :
  let r :=
    for_each (enumerate start messages)
      (fun '(i, msg) =>
         when many (print (header i)) ;;
         for_each msg structure_line ;;
         when (many && true) (print "")) in
  snd r = inr tt
  /\ list_len (fst r)
     = list_len (List.concat messages)
       + (if many then 2 * list_len messages else 0).
Proof.
  revert start. induction messages as [|msg messages IH]; intros start.
  - cbn. split; [reflexivity|]. destruct many; reflexivity.
  - cbn [enumerate for_each List.concat].
    destruct (for_each_count msg structure_line structure_line_prints_one)
      as (out & E & Hlen).
    destruct (IH (start + 1)) as [Hsnd Hfst]. rewrite E.
    destruct (for_each (enumerate (start + 1) messages) _) as [rest r].
    cbn [fst snd] in Hsnd, Hfst. subst r.
    assert (list_len (msg :: messages) = list_len messages + 1) as ->
      by (unfold list_len; cbn [List.length]; lia).
    rewrite list_len_app, <- Hlen.
    destruct many; cbn [when andb bind print ret app fst snd];
      (split; [reflexivity|]); rewrite ?app_nil_r, ?list_len_app;
      cbn [app]; unfold list_len in *; cbn [List.length];
      rewrite ?length_app; cbn [List.length]; lia.
Qed.

(** X13.  The Structure view ends normally and prints one line for each
    segment line; when there is more than one message it prints two more
    lines for each message, the header before it and the empty line after
    it. *)
Theorem show_structure_line_count (messages : list (list string)) :
  snd (show_structure messages) = inr tt
  /\ list_len (fst (show_structure messages))
     = list_len (List.concat messages)
       + (if 1 <? list_len messages then 2 * list_len messages else 0).
Proof. unfold show_structure, for_messages. apply structure_count_from. Qed.

(** ** Selectors written in decimal *)

Section DecimalSelectors.

Import Decimal.

Local Ltac same_triple :=
  apply f_equal; apply f_equal2; [apply f_equal2; [reflexivity|]|reflexivity];
  cbn [String.length]; lia.

Lemma int_digits_acc (d : uint) :
  forall (a : positive) (count : Z),
    int_digits true (Z.pos a) count (NilEmpty.string_of_uint d)
    = Some (Z.pos (Pos.of_uint_acc d a),
            count + len (NilEmpty.string_of_uint d), EmptyString).
Proof.
  unfold len.
  induction d as [|d IH|d IH|d IH|d IH|d IH|d IH|d IH|d IH|d IH|d IH];
    intros a count;
    [cbn [NilEmpty.string_of_uint int_digits Pos.of_uint_acc Pos.of_uint
          Z.of_N]; same_triple| | | | | | | | | |];
    cbn [NilEmpty.string_of_uint int_digits Pos.of_uint_acc String.length];
    match goal with
    | |- context [is_digit ?c] => change (is_digit c) with true
    end; cbv iota;
    match goal with
    | |- context [digit_value ?c] =>
        let v := eval vm_compute in (digit_value c) in
        change (digit_value c) with v
    end;
    match goal with
    | |- int_digits true ?acc _ _ = Some (Z.pos (Pos.of_uint_acc _ ?p), _, _) =>
        replace acc with (Z.pos p) by lia
    end;
    rewrite IH; same_triple.
Qed.

Lemma int_digits_zero (d : uint) :
  forall count : Z,
    int_digits true 0 count (NilEmpty.string_of_uint d)
    = Some (Z.of_N (Pos.of_uint d),
            count + len (NilEmpty.string_of_uint d), EmptyString).
Proof.
  unfold len.
  induction d as [|d IH|d IH|d IH|d IH|d IH|d IH|d IH|d IH|d IH|d IH];
    intros count;
    [cbn [NilEmpty.string_of_uint int_digits Pos.of_uint_acc Pos.of_uint
          Z.of_N]; same_triple| | | | | | | | | |];
    cbn [NilEmpty.string_of_uint int_digits Pos.of_uint String.length];
    match goal with
    | |- context [is_digit ?c] => change (is_digit c) with true
    end; cbv iota.
  1: { change (10 * 0 + digit_value "0") with 0. rewrite IH. same_triple. }
  all: match goal with
       | |- int_digits true ?acc _ _ = _ =>
           let v := eval vm_compute in acc in change acc with v
       end;
    rewrite int_digits_acc; unfold len; cbn [Z.of_N]; same_triple.
Qed.

Lemma int_unsigned_decimal (d : uint) :
  d <> Nil ->
  len (NilEmpty.string_of_uint d) <= int_max_str_digits ->
  int_unsigned (NilEmpty.string_of_uint d) = Some (Z.of_N (Pos.of_uint d)).
Proof.
  intros Hd Hlen. unfold int_unsigned.
  assert (int_digits false 0 0 (NilEmpty.string_of_uint d)
          = int_digits true 0 0 (NilEmpty.string_of_uint d)) as ->.
  { destruct d; [now elim Hd|reflexivity..]. }
  rewrite int_digits_zero. cbn [int_lstrip truthy orb].
  assert ((int_max_str_digits <? 0 + len (NilEmpty.string_of_uint d)) = false)
    as -> by lia.
  reflexivity.
Qed.

Lemma to_uint_not_nil (p : positive) : Pos.to_uint p <> Nil.
Proof.
  intros E. pose proof (DecimalPos.Unsigned.of_to p) as H.
  rewrite E in H. discriminate H.
Qed.

Lemma py_int_unsigned (d : uint) :
  d <> Nil ->
  py_int (NilEmpty.string_of_uint d)
  = int_unsigned (NilEmpty.string_of_uint d).
Proof. intros Hd. destruct d; [now elim Hd|reflexivity..]. Qed.

Lemma py_int_str_of_Z (n : Z) :
  len (str_of_Z n) <= int_max_str_digits ->
  py_int (str_of_Z n) = Some n.
Proof.
  unfold str_of_Z. destruct n as [|p|p]; [reflexivity| |]; intros Hlen;
    cbn [Z.to_int NilZero.string_of_int] in *;
    pose proof (to_uint_not_nil p) as Hd;
    pose proof (DecimalPos.Unsigned.of_to p) as Hof;
    unfold NilZero.string_of_uint in *;
    destruct (Pos.to_uint p) eqn:E; try (now elim Hd).
  all: try (rewrite py_int_unsigned, int_unsigned_decimal by
              (try discriminate; exact Hlen);
            now rewrite Hof).
  all: change (py_int (String "-" ?s)) with (option_map Z.opp (int_unsigned s));
    rewrite int_unsigned_decimal;
    [now rewrite Hof | discriminate
    | unfold len in *; cbn [String.length] in Hlen; lia].
Qed.

Lemma no_dot_in_uint (d : uint) :
  contains "." (NilEmpty.string_of_uint d) = false.
Proof. induction d; [reflexivity|exact IHd..]. Qed.

Lemma no_dot_in_str_of_Z (n : Z) : contains "." (str_of_Z n) = false.
Proof.
  assert (forall d, contains "." (NilZero.string_of_uint d) = false) as H.
  { intros d. unfold NilZero.string_of_uint.
    destruct d; try reflexivity; exact (no_dot_in_uint _). }
  unfold str_of_Z. destruct n as [|p|p]; [reflexivity|apply H|].
  cbn [Z.to_int NilZero.string_of_int contains]. apply H.
Qed.

End DecimalSelectors.

(** X14.  A selector written as a segment id without a dot, a dot, and a
    field number in decimal, as the views print it, parses back to that
    segment id and that number, provided the number has no more digits than
    [int] accepts. *)
Theorem selector_round_trip (seg : string) (n : Z) :
  contains "." seg = false ->
  len (str_of_Z n) <= int_max_str_digits ->
  parse_field_spec (seg ++ "." ++ str_of_Z n) = Some (seg, n).
Proof.
  intros Hseg Hlen. unfold parse_field_spec.
  change (seg ++ "." ++ str_of_Z n) with (seg ++ String "." (str_of_Z n)).
  rewrite (split_app_sep "." seg _ Hseg).
  rewrite (split_no_sep "." _ (no_dot_in_str_of_Z n)).
  now rewrite (py_int_str_of_Z n Hlen).
Qed.

Lemma selector_round_trip_witness :
  parse_field_spec ("RXA" ++ "." ++ str_of_Z (-20)) = Some ("RXA", -20).
Proof.
  apply (selector_round_trip "RXA" (-20)).
  - reflexivity.
  - vm_compute. discriminate.
Defined.

(** ** The descriptor inside the Structure view *)

Lemma populated_described (seg : string) (fields : list (Z * string)) :
  flat_map
    (fun '(j, val) =>
       if (String.eqb seg "MSH" && (j =? 1))%bool then []
       else if truthy (strip val)
            then [str_of_Z j ++ describe_component val]
            else [])
    fields
  = map (fun '(j, val) => str_of_Z j ++ describe_component val)
      (filter
         (fun '(j, val) =>
            (negb (String.eqb seg "MSH" && (j =? 1))
             && truthy (strip val))%bool)
         fields).
Proof.
  induction fields as [|[j val] fields IH]; [reflexivity|].
  cbn [flat_map filter]. rewrite IH.
  destruct (String.eqb seg "MSH" && (j =? 1))%bool; [reflexivity|].
  cbn [negb andb]. destruct (truthy (strip val)); reflexivity.
Qed.

Lemma strip_truthy (s : string) : truthy (strip s) = true -> truthy s = true.
Proof. destruct s; [discriminate|reflexivity]. Qed.

(** C7, as the code has it.  The descriptor checks, in this order: the empty
    value gives "(empty)"; a value with a caret gives the number of non-empty
    components over the number of components; a value with a tilde gives the
    number of repeats; any other value gives its length.  A value of white
    space only is not empty here and falls to the later checks; and the
    Structure view never hands it one: the line it prints holds the
    descriptors of the fields that are not blank after trimming, field 1 of
    a header apart, and of no other field. *)
Theorem describe_component_by_counting (value line : string) :
  describe_component value = describe_by_counting value
  /\ structure_line line
     = print ("  " ++ seg_id line ++ " ("
              ++ str_of_Z (list_len (split "|" line) - 1)
              ++ " fields) populated: "
              ++ join ", "
                   (map (fun '(j, val) => str_of_Z j ++ describe_component val)
                        (described_fields line)))
  /\ Forall (fun '(j, val) => truthy (strip val) = true /\ truthy val = true)
       (described_fields line).
Proof.
  split; [exact (describe_counting_eq value)|]. split.
  - unfold structure_line, described_fields.
    rewrite index_split_0, bind_ret_l. fold (seg_id line). rewrite !if_same.
    change (Z.to_nat 1) with 1%nat. now rewrite populated_described.
  - unfold described_fields. apply Forall_forall. intros [j val] H.
    apply filter_In in H as [_ H]. apply andb_prop in H as [_ H].
    split; [exact H|now apply strip_truthy].
Qed.

(** ** Which lines the selectors select *)






